(** * Arcade state machine (Main.py): a shallow embedding and its properties

    The program is a windowed application whose screens are the states of a
    finite-state machine.  [Game] (the Driver) owns the active state, the
    registry of state classes and forwards the host's callbacks; the classes
    [State], [MainMenu] and [Scene] implement the hooks.

    Python objects have reference semantics, and the program relies on it:
    the [persist] dictionary is handed from state to state, and the
    [text_position] list is reachable both from the state and from the
    dictionary.  The embedding therefore keeps an explicit object store.
    Exceptions and the store are threaded by a small state-and-error monad. *)

From Stdlib Require Import ZArith String List Lia.
From stdpp Require Import base option list gmap strings.

Local Open Scope string_scope.
Local Open Scope Z_scope.
Local Open Scope list_scope.

(** ** Values, exceptions, effects *)

(** A reference is an index into the object store. *)
Abbreviation loc := nat (only parsing).

(** The Python values the program manipulates.  Lists, dictionaries and class
    instances are mutable and live in the store; a value only refers to them. *)
#[warnings="-register-all"] Inductive value : Type :=
  | VNone
  | VBool (b : bool)
  | VInt (n : Z)
  | VStr (s : string)
  | VTuple (vs : list value)
  | VRef (l : loc).

(** The exceptions that can be raised.  [SystemExit] is what the builtin
    [quit()] raises.  [SystemError] is the model's answer to a reference that
    does not denote an object of the expected sort, which no Python run
    produces. *)
Inductive exn : Type :=
  | KeyError (k : value)
  | AttributeError (name : string)
  | TypeError
  | IndexError
  | SystemExit
  | SystemError.

(** Result of a computation over a state of type [S]: a value or an exception,
    and in both cases the state reached (mutations made before a raise stay). *)
Inductive res (S A : Type) : Type :=
  | Ok (a : A) (s : S)
  | Raise (e : exn) (s : S).
Arguments Ok {S A} a s.
Arguments Raise {S A} e s.

Definition M (S A : Type) : Type := S -> res S A.

Definition ret {S A} (a : A) : M S A := fun s => Ok a s.
Definition raise {S A} (e : exn) : M S A := fun s => Raise e s.
Definition bind {S A B} (m : M S A) (k : A -> M S B) : M S B :=
  fun s => match m s with
           | Ok a s' => k a s'
           | Raise e s' => Raise e s'
           end.
Definition gets {S A} (f : S -> A) : M S A := fun s => Ok (f s) s.
Definition modify {S} (f : S -> S) : M S unit := fun s => Ok tt (f s).

(** The state in which a computation stopped, normally or not. *)
Definition final {S A} (r : res S A) : S :=
  match r with Ok _ s => s | Raise _ s => s end.

Declare Scope py_scope.
Delimit Scope py_scope with py.
Notation "'let*' x ':=' m 'in' k" := (bind m (fun x => k))
  (at level 10, x name, m at level 100, k at level 200, only parsing) : py_scope.
Notation "m '>>' k" := (bind m (fun _ => k))
  (at level 90, right associativity, only parsing) : py_scope.
Local Open Scope py_scope.

(** What the program asks of the arcade library: these calls are recorded in
    order, they compute nothing the program reads back. *)
Inductive gfx : Type :=
  | OpenWindow (width height : Z)
  | StartRender
  | SetBackgroundColor (col : value)
  | DrawText (text start_x start_y : value) (color : Z * Z * Z)
             (font_size : Z) (anchor_y : string).

(** ** The object store *)

Section ObjectModel.
(** The classes of the program; an instance records which one it is of. *)
Context {cname : Type}.

(** Dictionaries are keyed by strings, which is the only kind of key the
    program ever uses. *)
Inductive obj : Type :=
  | OList (xs : list value)
  | ODict (d : gmap string value)
  | OInst (c : cname) (attrs : gmap string value).

(** [objs] is the heap; [screen] the arcade calls made so far; [entropy] and
    [drawn] stand for the random module: the n-th draw reads [entropy n]. *)
Record store : Type := Store {
  objs : list obj;
  screen : list gfx;
  entropy : nat -> Z;
  drawn : nat
}.

Definition set_objs (f : list obj -> list obj) (m : store) : store :=
  Store (f (objs m)) (screen m) (entropy m) (drawn m).

(** Allocation: the new object takes the next free index. *)
Definition new_obj (o : obj) : M store loc :=
  fun m => Ok (length (objs m)) (set_objs (fun os => os ++ [o]) m).

Definition deref (l : loc) : M store obj :=
  fun m => match objs m !! l with
           | Some o => Ok o m
           | None => Raise SystemError m
           end.

Definition write (l : loc) (o : obj) : M store unit :=
  modify (set_objs (fun os => <[l := o]> os)).

(** [self.name] on an instance. *)
Definition getattr (l : loc) (name : string) : M store value :=
  let* o := deref l in
  match o with
  | OInst _ attrs =>
      match attrs !! name with
      | Some v => ret v
      | None => raise (AttributeError name)
      end
  | _ => raise SystemError
  end.

(** [self.name = v] on an instance. *)
Definition setattr (l : loc) (name : string) (v : value) : M store unit :=
  let* o := deref l in
  match o with
  | OInst c attrs => write l (OInst c (<[name := v]> attrs))
  | _ => raise SystemError
  end.

(** [type(self)]. *)
Definition class_of (l : loc) : M store cname :=
  let* o := deref l in
  match o with
  | OInst c _ => ret c
  | _ => raise SystemError
  end.

(** Truth value of [v] as an [if] tests it. *)
Definition truthy (m : store) (v : value) : bool :=
  match v with
  | VNone => false
  | VBool b => b
  | VInt n => negb (n =? 0)
  | VStr s => negb (String.eqb s "")
  | VTuple vs => match vs with [] => false | _ => true end
  | VRef l =>
      match objs m !! l with
      | Some (OList xs) => match xs with [] => false | _ => true end
      | Some (ODict d) => negb (bool_decide (d = ∅))
      | _ => true
      end
  end.

(** Whether [v] can be used as a dictionary key: lists and dictionaries
    cannot, nor can a tuple that holds one. *)
Fixpoint hashable (m : store) (v : value) : bool :=
  match v with
  | VTuple vs => forallb (hashable m) vs
  | VRef l =>
      match objs m !! l with
      | Some (OList _) | Some (ODict _) => false
      | _ => true
      end
  | _ => true
  end.

(** What [d.get] evaluates to: the method of a dictionary, or, on an
    instance that has an attribute of that name, a value that cannot be
    called.  Nothing else has a [get]. *)
Inductive getter : Type :=
  | DictGet (p : loc)
  | NotCallable.

Definition attr_get (d : value) : M store getter :=
  match d with
  | VRef p =>
      let* o := deref p in
      match o with
      | ODict _ => ret (DictGet p)
      | OList _ => raise (AttributeError "get")
      | OInst _ attrs =>
          match attrs !! "get" with
          | Some _ => ret NotCallable
          | None => raise (AttributeError "get")
          end
      end
  | _ => raise (AttributeError "get")
  end.

(** The call [g(k, default)] for [g] the result of [d.get]. *)
Definition call_get (g : getter) (k : string) (default : value) : M store value :=
  match g with
  | DictGet p =>
      let* o := deref p in
      match o with
      | ODict kv => ret (match kv !! k with Some v => v | None => default end)
      | _ => raise SystemError
      end
  | NotCallable => raise TypeError
  end.

(** [d[k] = v] for a string [k]. *)
Definition setitem_str (d : value) (k : string) (v : value) : M store unit :=
  match d with
  | VRef p =>
      let* o := deref p in
      match o with
      | ODict kv => write p (ODict (<[k := v]> kv))
      | _ => raise TypeError
      end
  | _ => raise TypeError
  end.

(** [x + n] for an integer literal [n]. *)
Definition add_int (x : value) (n : Z) : M store value :=
  match x with
  | VInt k => ret (VInt (k + n))
  | VBool b => ret (VInt ((if b then 1 else 0) + n))
  | _ => raise TypeError
  end.

(** [v[i] += n]: read the item, add, store the item back. *)
Definition iadd_item (v : value) (i : nat) (n : Z) : M store unit :=
  match v with
  | VRef p =>
      let* o := deref p in
      match o with
      | OList xs =>
          match xs !! i with
          | Some x => let* x' := add_int x n in write p (OList (<[i := x']> xs))
          | None => raise IndexError
          end
      | ODict _ => raise (KeyError (VInt (Z.of_nat i)))
      | OInst _ _ => raise TypeError
      end
  | VTuple vs =>
      match vs !! i with
      | Some x => add_int x n >> raise TypeError
      | None => raise IndexError
      end
  | VStr s =>
      match String.get i s with
      | Some _ => raise TypeError
      | None => raise IndexError
      end
  | _ => raise TypeError
  end.

(** [v[i]]. *)
Definition getitem (v : value) (i : nat) : M store value :=
  match v with
  | VRef p =>
      let* o := deref p in
      match o with
      | OList xs =>
          match xs !! i with
          | Some x => ret x
          | None => raise IndexError
          end
      | ODict _ => raise (KeyError (VInt (Z.of_nat i)))
      | OInst _ _ => raise TypeError
      end
  | VTuple vs =>
      match vs !! i with
      | Some x => ret x
      | None => raise IndexError
      end
  | VStr s =>
      match String.get i s with
      | Some a => ret (VStr (String a EmptyString))
      | None => raise IndexError
      end
  | _ => raise TypeError
  end.

(** [randint(a, b)]: an integer of the closed range, taken from the next
    draw. *)
Definition randint (a b : Z) : M store Z :=
  fun m => Ok (a + entropy m (drawn m) mod (b - a + 1))
              (Store (objs m) (screen m) (entropy m) (S (drawn m))).

Definition emit (g : gfx) : M store unit :=
  modify (fun m => Store (objs m) (screen m ++ [g]) (entropy m) (drawn m)).

(** Pure readings of the store, for stating properties. *)
Definition attr (m : store) (l : loc) (name : string) : option value :=
  match objs m !! l with
  | Some (OInst _ attrs) => attrs !! name
  | _ => None
  end.

Definition entry (m : store) (d : value) (k : string) : option value :=
  match d with
  | VRef p =>
      match objs m !! p with
      | Some (ODict kv) => kv !! k
      | _ => None
      end
  | _ => None
  end.

Definition list_at (m : store) (v : value) : option (list value) :=
  match v with
  | VRef p =>
      match objs m !! p with
      | Some (OList xs) => Some xs
      | _ => None
      end
  | _ => None
  end.

(** The hooks of a state class, with the methods it inherits resolved. *)
Record class : Type := Class {
  c_init : loc -> M store unit;
  c_setup : loc -> value -> M store unit;
  c_key_down : loc -> Z -> Z -> M store unit;
  c_key_release : loc -> Z -> Z -> M store unit;
  c_update : loc -> value -> M store unit;
  c_draw : loc -> M store unit
}.
End ObjectModel.

Arguments obj : clear implicits.
Arguments store : clear implicits.
Arguments class : clear implicits.

(** ** The state classes *)

(** Key symbols of [arcade.key] (the values pyglet assigns). *)
Module key.
Definition ESCAPE : Z := 65307.
Definition SPACE : Z := 32.
End key.

(** [arcade.color.BLACK]. *)
Definition BLACK : Z * Z * Z := (0, 0, 0).

(** [class State(object)]: the parent of all state classes. *)
Module State.
Section Hooks.
Context {cname : Type}.
Let H : Type := M (store cname) unit.

Definition __init__ (self : loc) : H :=
  let* d := new_obj (ODict ∅) in
  setattr self "persist" (VRef d) >>
  setattr self "next_state" VNone >>
  setattr self "done" (VBool false) >>
  setattr self "quit" (VBool false).

Definition setup (self : loc) (persist : value) : H :=
  setattr self "persist" persist.

Definition key_down (self : loc) (key mods : Z) : H := ret tt.
Definition key_release (self : loc) (key mods : Z) : H := ret tt.
Definition update (self : loc) (dt : value) : H := ret tt.
Definition draw (self : loc) : H := ret tt.

Definition methods : class cname :=
  Class __init__ setup key_down key_release update draw.
End Hooks.
End State.

(** [class MainMenu(State)]: the initial state; a background in shades of red. *)
Module MainMenu.
Section Hooks.
Context {cname : Type}.
Let H : Type := M (store cname) unit.

Definition __init__ (self : loc) : H := State.__init__ self.

(** [self.persist.get] is evaluated before the default list is built, and
    called after. *)
Definition setup (self : loc) (persist : value) : H :=
  setattr self "persist" persist >>
  setattr self "text" (VStr "Scene One.
Press Space to Change Scenes,
Press Esc. to Exit.") >>
  let* bag := getattr self "persist" in
  let* get := attr_get bag in
  let* dflt := new_obj (OList [VInt 0; VInt 300]) in
  let* pos := call_get get "text_position" (VRef dflt) in
  setattr self "text_position" pos.

Definition key_down (self : loc) (key mods : Z) : H :=
  (if key =? key.ESCAPE
   then setattr self "quit" (VBool true)
   else ret tt) >>
  (if key =? key.SPACE
   then
     (let* pos := getattr self "text_position" in iadd_item pos 0 10) >>
     (let* pos := getattr self "text_position" in iadd_item pos 1 10) >>
     (let* pos := getattr self "text_position" in
      let* bag := getattr self "persist" in
      setitem_str bag "text_position" pos) >>
     setattr self "done" (VBool true) >>
     setattr self "next_state" (VStr "SCENE")
   else ret tt).

Definition update (self : loc) (dt : value) : H :=
  let* x := randint 150 200 in
  setattr self "col" (VTuple [VInt 255; VInt x; VInt x]).

Definition draw (self : loc) : H :=
  (let* col := getattr self "col" in emit (SetBackgroundColor col)) >>
  let* text := getattr self "text" in
  let* pos := getattr self "text_position" in
  let* x := getitem pos 0 in
  let* pos := getattr self "text_position" in
  let* y := getitem pos 1 in
  emit (DrawText text x y BLACK 14 "top").

Definition methods : class cname :=
  Class __init__ setup key_down State.key_release update draw.
End Hooks.
End MainMenu.

(** [class Scene(State)]: the second state; a background in shades of green. *)
Module Scene.
Section Hooks.
Context {cname : Type}.
Let H : Type := M (store cname) unit.

Definition __init__ (self : loc) : H := State.__init__ self.

(** [self.persist.get] is evaluated before the default list is built, and
    called after. *)
Definition setup (self : loc) (persist : value) : H :=
  setattr self "persist" persist >>
  setattr self "text" (VStr "Scene Two.
Press Space to Change Scenes,
Press Esc. to Exit.") >>
  let* bag := getattr self "persist" in
  let* get := attr_get bag in
  let* dflt := new_obj (OList [VInt 0; VInt 300]) in
  let* pos := call_get get "text_position" (VRef dflt) in
  setattr self "text_position" pos.

Definition key_down (self : loc) (key mods : Z) : H :=
  (if key =? key.ESCAPE
   then setattr self "quit" (VBool true)
   else ret tt) >>
  (if key =? key.SPACE
   then
     (let* pos := getattr self "text_position" in iadd_item pos 0 10) >>
     (let* pos := getattr self "text_position" in iadd_item pos 1 10) >>
     (let* pos := getattr self "text_position" in
      let* bag := getattr self "persist" in
      setitem_str bag "text_position" pos) >>
     setattr self "done" (VBool true) >>
     setattr self "next_state" (VStr "MAIN")
   else ret tt).

Definition update (self : loc) (dt : value) : H :=
  let* x := randint 150 200 in
  setattr self "col" (VTuple [VInt x; VInt 255; VInt x]).

Definition draw (self : loc) : H :=
  (let* col := getattr self "col" in emit (SetBackgroundColor col)) >>
  let* text := getattr self "text" in
  let* pos := getattr self "text_position" in
  let* x := getitem pos 0 in
  let* pos := getattr self "text_position" in
  let* y := getitem pos 1 in
  emit (DrawText text x y BLACK 14 "top").

Definition methods : class cname :=
  Class __init__ setup key_down State.key_release update draw.
End Hooks.
End Scene.

(** ** The Driver *)

(** [class Game(ac.Window)]. *)
Module Game.
Section Driver.
Context {cname : Type}.

(** The attributes of the [Game] object; [None] while [__init__] has not
    assigned them yet. *)
Record t : Type := Build {
  states : option (gmap string cname);
  state : option loc;
  persist : option loc
}.

(** The calls the Driver makes into state classes, in the order it makes
    them.  The record is kept beside the program state: hooks cannot read
    or change it, it only serves to say which hook was called on which
    instance. *)
Inductive call : Type :=
  | New (c : cname) (l : loc)
  | Setup (l : loc) (persist : value)
  | KeyDown (l : loc) (key mods : Z)
  | KeyRelease (l : loc) (key mods : Z)
  | Update (l : loc) (dt : value)
  | Draw (l : loc).

Record world : Type := World {
  game : t;
  mem : store cname;
  calls : list call
}.

(** The [Game] object as allocated, before [__init__] runs. *)
Definition boot (m : store cname) : world := World (Build None None None) m [].

Definition lift {A} (h : M (store cname) A) : M world A :=
  fun w => match h (mem w) with
           | Ok a m => Ok a (World (game w) m (calls w))
           | Raise e m => Raise e (World (game w) m (calls w))
           end.

Definition log (c : call) : M world unit :=
  modify (fun w => World (game w) (mem w) (calls w ++ [c])).

Definition self_attr {A} (field : t -> option A) (name : string) : M world A :=
  fun w => match field (game w) with
           | Some a => Ok a w
           | None => Raise (AttributeError name) w
           end.
Definition self_states := self_attr states "states".
Definition self_state := self_attr state "state".
Definition self_persist := self_attr persist "persist".

Definition set_game (f : t -> t) : M world unit :=
  modify (fun w => World (f (game w)) (mem w) (calls w)).
Definition set_states (r : gmap string cname) : M world unit :=
  set_game (fun g => Build (Some r) (state g) (persist g)).
Definition set_state (l : loc) : M world unit :=
  set_game (fun g => Build (states g) (Some l) (persist g)).
Definition set_persist (p : loc) : M world unit :=
  set_game (fun g => Build (states g) (state g) (Some p)).

Definition truth (v : value) : M world bool :=
  gets (fun w => truthy (mem w) v).

(** [reg[k]] on the registry, a dictionary from strings to classes. *)
Definition subscript (reg : gmap string cname) (k : value) : M world cname :=
  fun w => match k with
           | VStr s =>
               match reg !! s with
               | Some c => Ok c w
               | None => Raise (KeyError k) w
               end
           | _ => if hashable (mem w) k then Raise (KeyError k) w
                  else Raise TypeError w
           end.

(** The builtin [quit()]. *)
Definition quit : M world unit := raise SystemExit.

(** The method tables of the classes. *)
Variable classes : cname -> class cname.

(** [c()]: allocate the instance, run the class's [__init__] on it. *)
Definition construct (c : cname) : M world loc :=
  let* l := lift (new_obj (OInst c ∅)) in
  log (New c l) >>
  lift (c_init (classes c) l) >>
  ret l.

(** A method call on the instance at [l], resolved through its class. *)
Definition invoke (l : loc) (ev : call) (hook : class cname -> M (store cname) unit)
  : M world unit :=
  log ev >>
  let* c := lift (class_of l) in
  lift (hook (classes c)).

Definition __init__ (width height : Z) (states : gmap string cname)
    (initial_state : string) : M world unit :=
  lift (emit (OpenWindow width height)) >>
  set_states states >>
  (let* reg := self_states in
   let* c := subscript reg (VStr initial_state) in
   let* l := construct c in
   set_state l) >>
  (let* p := lift (new_obj (ODict ∅)) in set_persist p) >>
  let* l := self_state in
  let* p := self_persist in
  invoke l (Setup l (VRef p)) (fun k => c_setup k l (VRef p)).

Definition on_draw : M world unit :=
  lift (emit StartRender) >>
  let* l := self_state in
  invoke l (Draw l) (fun k => c_draw k l).

Definition on_key_press (key mods : Z) : M world unit :=
  let* l := self_state in
  invoke l (KeyDown l key mods) (fun k => c_key_down k l key mods).

Definition on_key_release (key mods : Z) : M world unit :=
  let* l := self_state in
  invoke l (KeyRelease l key mods) (fun k => c_key_release k l key mods).

Definition flip_state : M world unit :=
  let* l := self_state in
  let* persist := lift (getattr l "persist") in
  (let* l := self_state in lift (setattr l "done" (VBool false))) >>
  (let* reg := self_states in
   let* l := self_state in
   let* k := lift (getattr l "next_state") in
   let* c := subscript reg k in
   let* l' := construct c in
   set_state l') >>
  let* l := self_state in
  invoke l (Setup l persist) (fun k => c_setup k l persist).

Definition check_state : M world unit :=
  (let* l := self_state in
   let* d := lift (getattr l "done") in
   let* b := truth d in
   if b then flip_state else ret tt) >>
  let* l := self_state in
  let* q := lift (getattr l "quit") in
  let* b := truth q in
  if b then quit else ret tt.

Definition update (delta_time : value) : M world unit :=
  check_state >>
  let* l := self_state in
  invoke l (Update l delta_time) (fun k => c_update k l delta_time).

(** The callbacks the host event loop ([arcade.run]) delivers. *)
Inductive event : Type :=
  | EDraw
  | EKeyPress (key mods : Z)
  | EKeyRelease (key mods : Z)
  | EUpdate (delta_time : value).

Definition deliver (e : event) : M world unit :=
  match e with
  | EDraw => on_draw
  | EKeyPress k m => on_key_press k m
  | EKeyRelease k m => on_key_release k m
  | EUpdate dt => update dt
  end.

(** The event loop: callbacks are delivered one after the other; an
    exception that escapes a callback ends the loop. *)
Fixpoint run (es : list event) : M world unit :=
  match es with
  | [] => ret tt
  | e :: es' => deliver e >> run es'
  end.
End Driver.
End Game.

Arguments Game.t : clear implicits.
Arguments Game.call : clear implicits.
Arguments Game.world : clear implicits.
Arguments Game.event : clear implicits.

(** ** The program *)

(** The classes the module defines. *)
Inductive cname : Type := State_class | MainMenu_class | Scene_class.

Definition classes (c : cname) : class cname :=
  match c with
  | State_class => State.methods
  | MainMenu_class => MainMenu.methods
  | Scene_class => Scene.methods
  end.

Definition WIDTH : Z := 600.
Definition HEIGHT : Z := 600.

Definition game_states : gmap string cname :=
  <["MAIN" := MainMenu_class]> (<["SCENE" := Scene_class]> ∅).

(** [main()]: build the [Game], then let the host deliver [es]. *)
Definition main (es : list (Game.event)) : M (Game.world cname) unit :=
  Game.__init__ classes WIDTH HEIGHT game_states "MAIN" >>
  Game.run classes es.

(** A store with no object, for a given source of randomness. *)
Definition fresh_store (rnd : nat -> Z) : store cname := Store [] [] rnd 0.

(** ** Vocabulary of the properties *)

(** Number of state constructions in a record of calls: one per transition
    (and one for the initial state). *)
Fixpoint transitions {cname} (t : list (Game.call cname)) : nat :=
  match t with
  | [] => 0%nat
  | Game.New _ _ :: t' => S (transitions t')
  | _ :: t' => transitions t'
  end.

(** The hook call a callback amounts to when it is passed through to the
    state at [l]. *)
Definition forwarded {cname} (l : loc) (e : Game.event) : Game.call cname :=
  match e with
  | Game.EDraw => Game.Draw l
  | Game.EKeyPress k m => Game.KeyDown l k m
  | Game.EKeyRelease k m => Game.KeyRelease l k m
  | Game.EUpdate dt => Game.Update l dt
  end.

(** The callbacks other than the frame update. *)
Definition passive (e : Game.event) : Prop :=
  match e with Game.EUpdate _ => False | _ => True end.

(** [frame P m m']: every object of [m] is still there in [m'] and is the
    same, except that attributes whose name satisfies [P] may have been
    assigned on instances.  (New objects may have been allocated.) *)
Definition frame {cname} (P : string -> Prop) (m m' : store cname) : Prop :=
  forall p o, objs m !! p = Some o ->
    match o with
    | OInst c a =>
        exists a', objs m' !! p = Some (OInst c a')
                   /\ forall n, ~ P n -> a' !! n = a !! n
    | _ => objs m' !! p = Some o
    end.

(** The attributes named in a list. *)
Definition assigns (names : list string) : string -> Prop :=
  fun n => In n names.

(** A computation that, however it ends, leaves the store within
    [frame P] of where it started. *)
Definition framed {cname A} (P : string -> Prop) (h : M (store cname) A) : Prop :=
  forall m, frame P m (final (h m)).

(** What the Driver relies on in a state class (section 4.2 of the design):
    on an instance, [__init__] returns and leaves [quit] false; [setup],
    given a dictionary, returns, stores it as [persist] and does not touch
    [quit]; [update] returns and does not touch [persist]; none of them
    alters existing dictionaries or lists. *)
Record well_behaved {cname} (k : class cname) : Prop := WellBehaved {
  wb_init : forall l m c a,
    objs m !! l = Some (OInst c a) ->
    exists m', c_init k l m = Ok tt m'
               /\ frame (fun _ => True) m m'
               /\ attr m' l "quit" = Some (VBool false);
  wb_setup : forall l m c a p d,
    objs m !! l = Some (OInst c a) ->
    objs m !! p = Some (ODict d) ->
    exists m', c_setup k l (VRef p) m = Ok tt m'
               /\ frame (fun n => n <> "quit") m m'
               /\ attr m' l "persist" = Some (VRef p);
  wb_update : forall l dt m c a,
    objs m !! l = Some (OInst c a) ->
    exists m', c_update k l dt m = Ok tt m'
               /\ frame (fun n => n <> "persist") m m'
}.

(** On every object of [m], the transition flags and [persist] read the same
    in [m'], and every dictionary of [m] is the same in [m']. *)
Definition flags_kept {cname} (m m' : store cname) : Prop :=
  (forall p n, is_Some (objs m !! p) ->
               In n ["done"; "quit"; "next_state"; "persist"] ->
               attr m' p n = attr m p n)
  /\ (forall p d, objs m !! p = Some (ODict d) -> objs m' !! p = Some (ODict d)).

(** The exception a computation ended with, if any. *)
Definition raised {S A} (r : res S A) : option exn :=
  match r with Ok _ _ => None | Raise e _ => Some e end.

(** The class of the active state. *)
Definition active_class {cname} (w : Game.world cname) : option cname :=
  match Game.state (Game.game w) with
  | Some l =>
      match objs (Game.mem w) !! l with
      | Some (OInst c _) => Some c
      | _ => None
      end
  | None => None
  end.

(** [self.state.persist[k]]. *)
Definition active_persist {cname} (w : Game.world cname) (k : string) : option value :=
  match Game.state (Game.game w) with
  | Some l =>
      match attr (Game.mem w) l "persist" with
      | Some bag => entry (Game.mem w) bag k
      | None => None
      end
  | None => None
  end.

(** The list [self.state.persist["text_position"]] refers to. *)
Definition text_position_of {cname} (w : Game.world cname) : option (list value) :=
  match active_persist w "text_position" with
  | Some pos => list_at (Game.mem w) pos
  | None => None
  end.

(** The program run on the events [es], with [rnd] as source of randomness. *)
Definition play (rnd : nat -> Z) (es : list Game.event) : res (Game.world cname) unit :=
  main es (Game.boot (fresh_store rnd)).

(** A class table used to exercise the Driver on a state that is born with
    its [done] flag set: [Loop.__init__] runs [State.__init__], then asks for
    a transition to its own key. *)
Module Hasty.
Inductive cname : Type := Loop.

Definition __init__ (self : loc) : M (store cname) unit :=
  State.__init__ self >>
  setattr self "done" (VBool true) >>
  setattr self "next_state" (VStr "LOOP").

Definition classes (c : cname) : class cname :=
  Class __init__ State.setup State.key_down State.key_release State.update
    State.draw.

Definition registry : gmap string cname := <["LOOP" := Loop]> ∅.

Definition start : res (Game.world cname) unit :=
  Game.__init__ classes 1 1 registry "LOOP" (Game.boot (Store [] [] (fun _ => 0) 0)).
End Hasty.

(** Two objects of the same sort: both lists, both dictionaries, or both
    instances of one class. *)
Definition same_kind {cname} (o o' : obj cname) : Prop :=
  match o, o' with
  | OList _, OList _ => True
  | ODict _, ODict _ => True
  | OInst c _, OInst c' _ => c = c'
  | _, _ => False
  end.

(** [kept m m']: every object of [m] is still there in [m'], of the same
    sort; its contents may have changed. *)
Definition kept {cname} (m m' : store cname) : Prop :=
  forall p o, objs m !! p = Some o ->
    exists o', objs m' !! p = Some o' /\ same_kind o o'.

(** A computation that, however it ends, keeps the objects of the store. *)
Definition kinded {cname A} (h : M (store cname) A) : Prop :=
  forall m, kept m (final (h m)).

(** A class all of whose hooks keep the objects of the store. *)
Definition kinded_class {cname} (k : class cname) : Prop :=
  (forall l, kinded (c_init k l))
  /\ (forall l bag, kinded (c_setup k l bag))
  /\ (forall l key mods, kinded (c_key_down k l key mods))
  /\ (forall l key mods, kinded (c_key_release k l key mods))
  /\ (forall l dt, kinded (c_update k l dt))
  /\ (forall l, kinded (c_draw k l)).

(** The [Game] is anchored on the registry [reg]: its [states] is [reg] and
    its [state] refers to an instance of a class that [reg] registers. *)
Definition anchored {cname} (reg : gmap string cname) (w : Game.world cname) : Prop :=
  Game.states (Game.game w) = Some reg
  /\ exists l c a k,
       Game.state (Game.game w) = Some l
       /\ objs (Game.mem w) !! l = Some (OInst c a)
       /\ reg !! k = Some c.

(** The list [self.state.text_position] refers to. *)
Definition active_position {cname} (w : Game.world cname) : option (list value) :=
  match Game.state (Game.game w) with
  | Some l =>
      match attr (Game.mem w) l "text_position" with
      | Some pos => list_at (Game.mem w) pos
      | None => None
      end
  | None => None
  end.

(** The screen a SPACE leads to. *)
Definition other_screen (c : cname) : cname :=
  match c with
  | MainMenu_class => Scene_class
  | _ => MainMenu_class
  end.

(** The screen shown after [n] changes of screen. *)
Fixpoint screen_after (n : nat) : cname :=
  match n with
  | O => MainMenu_class
  | S n' => other_screen (screen_after n')
  end.

(** SPACE then a frame update, once per element of [presses], which gives the
    modifiers of the key press and the time passed to the update. *)
Definition space_presses (presses : list (Z * value)) : list Game.event :=
  flat_map (fun mt => [Game.EKeyPress key.SPACE (fst mt); Game.EUpdate (snd mt)])
           presses.

(** A screen at rest: the active state is an instance of the screen class
    [c], neither [done] nor [quit]; its [persist] is the dictionary at [p],
    which is also the [Game]'s; its [text_position] is the list at [t], which
    holds [x] and [y]; the dictionary has no position recorded or that very
    list. *)
Definition standing (w : Game.world cname) (c : cname) (p t : loc) (x y : Z) : Prop :=
  Game.states (Game.game w) = Some game_states
  /\ Game.persist (Game.game w) = Some p
  /\ (c = MainMenu_class \/ c = Scene_class)
  /\ exists l a kv,
       Game.state (Game.game w) = Some l
       /\ objs (Game.mem w) !! l = Some (OInst c a)
       /\ a !! "done" = Some (VBool false)
       /\ a !! "quit" = Some (VBool false)
       /\ a !! "persist" = Some (VRef p)
       /\ a !! "text_position" = Some (VRef t)
       /\ objs (Game.mem w) !! p = Some (ODict kv)
       /\ (kv !! "text_position" = None \/ kv !! "text_position" = Some (VRef t))
       /\ objs (Game.mem w) !! t = Some (OList [VInt x; VInt y]).

(** The key of the state a screen asks for on SPACE. *)
Definition next_key (c : cname) : string :=
  match c with
  | MainMenu_class => "SCENE"
  | _ => "MAIN"
  end.

(** The colour a screen's [update] picks for the draw [x]. *)
Definition shade (c : cname) (x : Z) : value :=
  match c with
  | MainMenu_class => VTuple [VInt 255; VInt x; VInt x]
  | _ => VTuple [VInt x; VInt 255; VInt x]
  end.

(** * Properties *)

Lemma transitions_app {cname} (t u : list (Game.call cname)) :
  transitions (t ++ u) = (transitions t + transitions u)%nat.
Proof.
  induction t as [|c t IH]; simpl; [reflexivity|].
  destruct c; simpl; rewrite IH; reflexivity.
Qed.

(** Case analysis on whatever the goal still branches on, innermost
    scrutinee first. *)
Ltac break_match :=
  repeat (match goal with
          | |- context [match ?x with _ => _ end] =>
              lazymatch x with
              | context [match _ with _ => _ end] => fail
              | _ => destruct x eqn:?
              end
          end;
          cbn [final Game.calls Game.game Game.mem Game.state Game.states
                 Game.persist] in *).

(** ** The store *)

Section Store_facts.
Context {cname : Type}.
Implicit Types (m : store cname) (P : string -> Prop).

Lemma frame_refl P m : frame P m m.
Proof.
  intros p o H. destruct o; try assumption.
  exists attrs. split; [assumption | reflexivity].
Qed.

Lemma frame_trans P m1 m2 m3 : frame P m1 m2 -> frame P m2 m3 -> frame P m1 m3.
Proof.
  intros H12 H23 p o H. specialize (H12 p o H). destruct o.
  - exact (H23 _ _ H12).
  - exact (H23 _ _ H12).
  - destruct H12 as (a' & H' & Ha'). destruct (H23 _ _ H') as (a'' & H'' & Ha'').
    exists a''. split; [assumption|]. intros n Hn. rewrite Ha'', Ha'; auto.
Qed.

Lemma frame_mono (P Q : string -> Prop) m m' :
  (forall n, P n -> Q n) -> frame P m m' -> frame Q m m'.
Proof.
  intros HPQ H p o Ho. specialize (H p o Ho). destruct o; try assumption.
  destruct H as (a' & H' & Ha'). exists a'. split; [assumption|].
  intros n Hn. apply Ha'. intros HP. apply Hn, HPQ, HP.
Qed.

(** A store with the same heap is within any frame. *)
Lemma frame_same_objs P m m' : objs m' = objs m -> frame P m m'.
Proof. intros E p o H. rewrite E. apply (frame_refl P m p o H). Qed.

Lemma frame_alloc P m o :
  frame P m (set_objs (fun os => os ++ [o]) m).
Proof.
  intros p o' H. cbn.
  assert (E : (objs m ++ [o]) !! p = Some o') by (apply lookup_app_l_Some; exact H).
  destruct o'; try assumption.
  exists attrs. split; [assumption | reflexivity].
Qed.

Lemma frame_setattr P m l c a n v :
  objs m !! l = Some (OInst c a) -> P n ->
  frame P m (set_objs (fun os => <[l := OInst c (<[n := v]> a)]> os) m).
Proof.
  intros Hl Hn p o H. cbn. destruct (decide (p = l)) as [->|Hne].
  - rewrite Hl in H. injection H as <-.
    exists (<[n := v]> a). split.
    + apply list_lookup_insert_eq. eapply lookup_lt_Some; eassumption.
    + intros n' Hn'. apply lookup_insert_ne. intros ->. contradiction.
  - assert (E : <[l := OInst c (<[n := v]> a)]> (objs m) !! p = Some o)
      by (rewrite list_lookup_insert_ne by congruence; exact H).
    destruct o; try assumption.
    exists attrs. split; [assumption | reflexivity].
Qed.

(** What a frame keeps. *)
Lemma frame_dict P m m' p d :
  frame P m m' -> objs m !! p = Some (ODict d) -> objs m' !! p = Some (ODict d).
Proof. intros H Hp. exact (H _ _ Hp). Qed.

Lemma frame_inst P m m' l c a :
  frame P m m' -> objs m !! l = Some (OInst c a) ->
  exists a', objs m' !! l = Some (OInst c a').
Proof. intros H Hl. destruct (H _ _ Hl) as (a' & H' & _). eauto. Qed.

Lemma frame_attr P m m' l n :
  frame P m m' -> is_Some (objs m !! l) -> ~ P n -> attr m' l n = attr m l n.
Proof.
  intros H [o Ho] Hn. unfold attr. specialize (H _ _ Ho). rewrite Ho.
  destruct o.
  - rewrite H. reflexivity.
  - rewrite H. reflexivity.
  - destruct H as (a' & -> & Ha'). apply Ha', Hn.
Qed.

(** Composition rules for [framed]. *)
Lemma framed_ret {A} P (a : A) : framed P (ret a : M (store cname) A).
Proof. intros m. apply frame_refl. Qed.

Lemma framed_raise {A} P e : framed P (raise e : M (store cname) A).
Proof. intros m. apply frame_refl. Qed.

Lemma framed_bind {A B} P (h : M (store cname) A) (k : A -> M (store cname) B) :
  framed P h -> (forall a, framed P (k a)) -> framed P (bind h k).
Proof.
  intros Hh Hk m. unfold bind. specialize (Hh m).
  destruct (h m) as [a s|e s]; cbn in *.
  - eapply frame_trans; [exact Hh | apply Hk].
  - exact Hh.
Qed.

Lemma framed_deref P l : framed P (deref l : M (store cname) _).
Proof. intros m. unfold deref. destruct (objs m !! l); apply frame_refl. Qed.

Lemma framed_getattr P l n : framed P (getattr l n : M (store cname) _).
Proof.
  intros m. unfold getattr, bind, deref, ret, raise.
  break_match; apply frame_refl.
Qed.

Lemma framed_setattr P l n v : P n -> framed P (setattr l n v : M (store cname) _).
Proof.
  intros Hn m. unfold setattr, bind, deref, write, modify, raise.
  destruct (objs m !! l) as [[| |c a]|] eqn:Hl; cbn; try apply frame_refl.
  apply frame_setattr; assumption.
Qed.

Lemma framed_new_obj P o : framed P (new_obj o : M (store cname) _).
Proof. intros m. apply frame_alloc. Qed.

Lemma framed_attr_get P d : framed P (attr_get d : M (store cname) _).
Proof.
  intros m. unfold attr_get, bind, deref, ret, raise.
  break_match; apply frame_refl.
Qed.

Lemma framed_call_get P g k v : framed P (call_get g k v : M (store cname) _).
Proof.
  intros m. unfold call_get, bind, deref, ret, raise.
  break_match; apply frame_refl.
Qed.

Lemma framed_getitem P v i : framed P (getitem v i : M (store cname) _).
Proof.
  intros m. unfold getitem, bind, deref, ret, raise.
  break_match; apply frame_refl.
Qed.

Lemma framed_randint P a b : framed P (randint a b : M (store cname) _).
Proof. intros m. apply frame_same_objs. reflexivity. Qed.

Lemma framed_emit P g : framed P (emit g : M (store cname) _).
Proof. intros m. apply frame_same_objs. reflexivity. Qed.

(** Primitives on an instance, when they succeed. *)
Lemma setattr_inst m l c a n v :
  objs m !! l = Some (OInst c a) ->
  setattr l n v m
  = Ok tt (set_objs (fun os => <[l := OInst c (<[n := v]> a)]> os) m).
Proof. intros H. unfold setattr, bind, deref. rewrite H. reflexivity. Qed.

Lemma getattr_attr m l n v : attr m l n = Some v -> getattr l n m = Ok v m.
Proof.
  unfold attr, getattr, bind, deref. intros H.
  destruct (objs m !! l) as [[| |c a]|]; try discriminate.
  rewrite H. reflexivity.
Qed.

Lemma attr_inst m l c a n : objs m !! l = Some (OInst c a) -> attr m l n = a !! n.
Proof. intros H. unfold attr. rewrite H. reflexivity. Qed.

Lemma class_of_inst m l c a : objs m !! l = Some (OInst c a) -> class_of l m = Ok c m.
Proof. intros H. unfold class_of, bind, deref. rewrite H. reflexivity. Qed.

Lemma bind_Ok {S A B} (h : M S A) (k : A -> M S B) s a s' :
  h s = Ok a s' -> bind h k s = k a s'.
Proof. intros E. unfold bind. rewrite E. reflexivity. Qed.

Lemma bind_Raise {S A B} (h : M S A) (k : A -> M S B) s e s' :
  h s = Raise e s' -> bind h k s = Raise e s'.
Proof. intros E. unfold bind. rewrite E. reflexivity. Qed.

(** One assignment on an instance: it returns, the instance has the new
    attribute, the other objects are as they were. *)
Lemma setattr_step m l c a n v :
  objs m !! l = Some (OInst c a) ->
  exists m', setattr l n v m = Ok tt m'
             /\ objs m' !! l = Some (OInst c (<[n := v]> a))
             /\ (forall p, p <> l -> objs m' !! p = objs m !! p)
             /\ length (objs m') = length (objs m).
Proof.
  intros H. eexists. split; [apply setattr_inst; exact H|]. cbn. repeat split.
  - apply list_lookup_insert_eq. eapply lookup_lt_Some; exact H.
  - intros p Hp. apply list_lookup_insert_ne. congruence.
  - apply length_insert.
Qed.

Lemma new_obj_step m o :
  exists m', new_obj o m = Ok (length (objs m)) m'
             /\ forall p x, objs m !! p = Some x -> objs m' !! p = Some x.
Proof.
  eexists. split; [reflexivity|]. cbn. intros p x H.
  apply lookup_app_l_Some. exact H.
Qed.

Lemma new_obj_eq m o :
  new_obj o m = Ok (length (objs m)) (set_objs (fun os => os ++ [o]) m).
Proof. reflexivity. Qed.
End Store_facts.

Create HintDb framed.
#[local] Hint Resolve framed_ret framed_raise framed_deref framed_getattr
  framed_new_obj framed_attr_get framed_call_get framed_getitem framed_randint
  framed_emit : framed.

(** Walks through a hook, one primitive at a time. *)
Ltac framed :=
  repeat first
    [ solve [auto with framed]
    | apply framed_setattr; solve [cbn; tauto]
    | apply framed_bind; [|intros] ].

Section Driver_facts.
Context {cname : Type} (classes : cname -> class cname).
Implicit Types (w : Game.world cname) (m : store cname).

Lemma update_trace dt w :
  exists t, Game.calls (final (Game.update classes dt w)) = Game.calls w ++ t
            /\ (transitions t <= 1)%nat.
Proof.
  unfold Game.update, Game.check_state, Game.flip_state, Game.construct,
    Game.invoke, Game.lift, Game.log, Game.quit, Game.truth, Game.subscript,
    Game.self_state, Game.self_states, Game.set_state, Game.set_game,
    Game.self_attr, bind, ret, raise, gets, modify.
  break_match.
  all: try (exists []; rewrite app_nil_r; split; [reflexivity| simpl; lia]).
  all: rewrite <- ?app_assoc; eexists; split; [reflexivity| simpl; lia].
Qed.
End Driver_facts.

(** ** The state classes *)

Section Class_facts.
Context {cname : Type}.
Implicit Types (m : store cname) (l : loc).

Lemma State_init_framed l :
  framed (assigns ["persist"; "next_state"; "done"; "quit"])
         (State.__init__ l : M (store cname) unit).
Proof. unfold State.__init__. framed. Qed.

Lemma State_setup_framed l bag :
  framed (assigns ["persist"]) (State.setup l bag : M (store cname) unit).
Proof. unfold State.setup. framed. Qed.

Lemma MainMenu_setup_framed l bag :
  framed (assigns ["persist"; "text"; "text_position"])
         (MainMenu.setup l bag : M (store cname) unit).
Proof. unfold MainMenu.setup. framed. Qed.

Lemma Scene_setup_framed l bag :
  framed (assigns ["persist"; "text"; "text_position"])
         (Scene.setup l bag : M (store cname) unit).
Proof. unfold Scene.setup. framed. Qed.

Lemma MainMenu_update_framed l dt :
  framed (assigns ["col"]) (MainMenu.update l dt : M (store cname) unit).
Proof. unfold MainMenu.update. framed. Qed.

Lemma Scene_update_framed l dt :
  framed (assigns ["col"]) (Scene.update l dt : M (store cname) unit).
Proof. unfold Scene.update. framed. Qed.

Lemma MainMenu_draw_framed l :
  framed (assigns []) (MainMenu.draw l : M (store cname) unit).
Proof. unfold MainMenu.draw. framed. Qed.

Lemma Scene_draw_framed l :
  framed (assigns []) (Scene.draw l : M (store cname) unit).
Proof. unfold Scene.draw. framed. Qed.

(** [State.__init__] on an instance returns, with [quit] false. *)
Lemma State_init_ok l m c a :
  objs m !! l = Some (OInst c a) ->
  exists m', State.__init__ l m = Ok tt m'
             /\ attr m' l "quit" = Some (VBool false).
Proof.
  intros Hl. unfold State.__init__.
  rewrite (bind_Ok _ _ _ _ _ (new_obj_eq m _)).
  set (m0 := set_objs _ m).
  assert (H0 : objs m0 !! l = Some (OInst c a))
    by (apply lookup_app_l_Some; exact Hl).
  destruct (setattr_step m0 l c a "persist" (VRef (length (objs m))) H0)
    as (m1 & E1 & H1 & _ & _).
  destruct (setattr_step m1 l c _ "next_state" VNone H1) as (m2 & E2 & H2 & _ & _).
  destruct (setattr_step m2 l c _ "done" (VBool false) H2) as (m3 & E3 & H3 & _ & _).
  destruct (setattr_step m3 l c _ "quit" (VBool false) H3) as (m4 & E4 & H4 & _ & _).
  exists m4. split.
  - rewrite (bind_Ok _ _ _ _ _ E1), (bind_Ok _ _ _ _ _ E2), (bind_Ok _ _ _ _ _ E3).
    exact E4.
  - rewrite (attr_inst _ _ _ _ _ H4). apply lookup_insert_eq.
Qed.

Lemma State_setup_ok l m c a bag :
  objs m !! l = Some (OInst c a) ->
  exists m', State.setup l bag m = Ok tt m'
             /\ attr m' l "persist" = Some bag.
Proof.
  intros Hl. unfold State.setup.
  destruct (setattr_step m l c a "persist" bag Hl) as (m1 & E1 & H1 & _ & _).
  exists m1. split; [exact E1|].
  rewrite (attr_inst _ _ _ _ _ H1). apply lookup_insert_eq.
Qed.

(** [setup] of the two screens, which differ by the text only. *)
Lemma screen_setup_ok (text : string) l m c a p d :
  objs m !! l = Some (OInst c a) ->
  objs m !! p = Some (ODict d) ->
  exists m',
    (setattr l "persist" (VRef p) >>
     setattr l "text" (VStr text) >>
     let* bag := getattr l "persist" in
     let* get := attr_get bag in
     let* dflt := new_obj (OList [VInt 0; VInt 300]) in
     let* pos := call_get get "text_position" (VRef dflt) in
     setattr l "text_position" pos) m = Ok tt m'
    /\ attr m' l "persist" = Some (VRef p).
Proof.
  intros Hl Hp.
  assert (Hne : p <> l) by (intros ->; rewrite Hl in Hp; discriminate).
  destruct (setattr_step m l c a "persist" (VRef p) Hl) as (m1 & E1 & H1 & O1 & _).
  destruct (setattr_step m1 l c _ "text" (VStr text) H1) as (m2 & E2 & H2 & O2 & _).
  rewrite (bind_Ok _ _ _ _ _ E1), (bind_Ok _ _ _ _ _ E2).
  assert (G : getattr l "persist" m2 = Ok (VRef p) m2).
  { apply getattr_attr. rewrite (attr_inst _ _ _ _ _ H2).
    rewrite lookup_insert_ne by discriminate. apply lookup_insert_eq. }
  rewrite (bind_Ok _ _ _ _ _ G).
  assert (Hp2 : objs m2 !! p = Some (ODict d))
    by (rewrite O2, O1 by exact Hne; exact Hp).
  assert (D : attr_get (VRef p) m2 = Ok (DictGet p) m2)
    by (unfold attr_get, bind, deref; rewrite Hp2; reflexivity).
  rewrite (bind_Ok _ _ _ _ _ D), (bind_Ok _ _ _ _ _ (new_obj_eq m2 _)).
  set (m3 := set_objs _ m2).
  assert (Hp3 : objs m3 !! p = Some (ODict d))
    by (apply lookup_app_l_Some; exact Hp2).
  assert (Hl3 : objs m3 !! l = Some (OInst c (<["text" := VStr text]> (<["persist" := VRef p]> a))))
    by (apply lookup_app_l_Some; exact H2).
  set (pos := match d !! "text_position" with
              | Some v => v
              | None => VRef (length (objs m2))
              end).
  assert (Gt : call_get (DictGet p) "text_position" (VRef (length (objs m2))) m3
               = Ok pos m3)
    by (unfold call_get, bind, deref; rewrite Hp3; reflexivity).
  rewrite (bind_Ok _ _ _ _ _ Gt).
  destruct (setattr_step m3 l c _ "text_position" pos Hl3) as (m4 & E4 & H4 & _ & _).
  exists m4. split; [exact E4|].
  rewrite (attr_inst _ _ _ _ _ H4).
  rewrite !lookup_insert_ne by discriminate. apply lookup_insert_eq.
Qed.

(** [update] of the two screens, which differ by the colour only. *)
Lemma screen_update_ok (col : Z -> value) l m c a :
  objs m !! l = Some (OInst c a) ->
  exists m', (let* x := randint 150 200 in setattr l "col" (col x)) m = Ok tt m'.
Proof.
  intros Hl. unfold bind, randint.
  match goal with |- context [setattr l "col" ?v ?m0] =>
    destruct (setattr_step m0 l c a "col" v Hl) as (m1 & E1 & _) end.
  exists m1. exact E1.
Qed.

Lemma State_well_behaved : well_behaved (State.methods (cname := cname)).
Proof.
  split; cbn.
  - intros l m c a Hl. destruct (State_init_ok l m c a Hl) as (m' & E & Hq).
    exists m'. repeat split; try assumption.
    generalize (State_init_framed l m). rewrite E. apply frame_mono. tauto.
  - intros l m c a p d Hl Hp.
    destruct (State_setup_ok l m c a (VRef p) Hl) as (m' & E & Hq).
    exists m'. repeat split; try assumption.
    generalize (State_setup_framed l (VRef p) m). rewrite E. apply frame_mono.
    cbn. intuition congruence.
  - intros l dt m c a Hl. exists m. split; [reflexivity | apply frame_refl].
Qed.

Lemma MainMenu_well_behaved : well_behaved (MainMenu.methods (cname := cname)).
Proof.
  split; cbn.
  - intros l m c a Hl. destruct (State_init_ok l m c a Hl) as (m' & E & Hq).
    exists m'. repeat split; try assumption.
    generalize (State_init_framed l m). rewrite E. apply frame_mono. tauto.
  - intros l m c a p d Hl Hp.
    generalize (MainMenu_setup_framed l (VRef p) m). unfold MainMenu.setup.
    match goal with |- context [VStr ?t] =>
      destruct (screen_setup_ok t l m c a p d Hl Hp) as (m' & E & Hq) end.
    rewrite E. intros F. exists m'. repeat split; try assumption.
    revert F. apply frame_mono. cbn. intuition congruence.
  - intros l dt m c a Hl.
    generalize (MainMenu_update_framed l dt m). unfold MainMenu.update.
    destruct (screen_update_ok (fun x => VTuple [VInt 255; VInt x; VInt x]) l m c a Hl)
      as (m' & E).
    rewrite E. intros F. exists m'. split; [exact E|].
    revert F. apply frame_mono. cbn. intuition congruence.
Qed.

Lemma Scene_well_behaved : well_behaved (Scene.methods (cname := cname)).
Proof.
  split; cbn.
  - intros l m c a Hl. destruct (State_init_ok l m c a Hl) as (m' & E & Hq).
    exists m'. repeat split; try assumption.
    generalize (State_init_framed l m). rewrite E. apply frame_mono. tauto.
  - intros l m c a p d Hl Hp.
    generalize (Scene_setup_framed l (VRef p) m). unfold Scene.setup.
    match goal with |- context [VStr ?t] =>
      destruct (screen_setup_ok t l m c a p d Hl Hp) as (m' & E & Hq) end.
    rewrite E. intros F. exists m'. repeat split; try assumption.
    revert F. apply frame_mono. cbn. intuition congruence.
  - intros l dt m c a Hl.
    generalize (Scene_update_framed l dt m). unfold Scene.update.
    destruct (screen_update_ok (fun x => VTuple [VInt x; VInt 255; VInt x]) l m c a Hl)
      as (m' & E).
    rewrite E. intros F. exists m'. split; [exact E|].
    revert F. apply frame_mono. cbn. intuition congruence.
Qed.
End Class_facts.

Lemma classes_well_behaved c : well_behaved (classes c).
Proof.
  destruct c; [apply State_well_behaved | apply MainMenu_well_behaved
              | apply Scene_well_behaved].
Qed.

(** ** The Driver on a transition *)

Section Transition.
Context {cname : Type} (classes : cname -> class cname).
Implicit Types (w : Game.world cname) (m : store cname).

Ltac driver_unfold :=
  unfold Game.update, Game.check_state, Game.flip_state, Game.construct,
    Game.invoke, Game.lift, Game.log, Game.quit, Game.truth, Game.subscript,
    Game.self_state, Game.self_states, Game.self_persist, Game.set_state,
    Game.set_states, Game.set_persist, Game.set_game,
    Game.self_attr, bind, ret, raise, gets, modify.

Ltac driver_cbn :=
  cbn [Game.mem Game.game Game.calls Game.state Game.states Game.persist].

(** The frame update when the active state asks for a transition to a
    well-behaved class: the call returns; the successor is a new instance,
    set up with the bag and updated; the bag itself is untouched. *)
Lemma transition_tick w dt l reg d k c p kv :
  Game.state (Game.game w) = Some l ->
  Game.states (Game.game w) = Some reg ->
  attr (Game.mem w) l "done" = Some d ->
  truthy (Game.mem w) d = true ->
  attr (Game.mem w) l "persist" = Some (VRef p) ->
  objs (Game.mem w) !! p = Some (ODict kv) ->
  attr (Game.mem w) l "next_state" = Some (VStr k) ->
  reg !! k = Some c ->
  well_behaved (classes c) ->
  let l' := length (objs (Game.mem w)) in
  exists m',
    Game.update classes dt w
    = Ok tt (Game.World
               (Game.Build (Some reg) (Some l') (Game.persist (Game.game w)))
               m'
               (Game.calls w ++ [Game.New c l'; Game.Setup l' (VRef p);
                                 Game.Update l' dt]))
    /\ (exists a', objs m' !! l' = Some (OInst c a'))
    /\ attr m' l' "persist" = Some (VRef p)
    /\ objs m' !! p = Some (ODict kv).
Proof.
  destruct w as [[sts st ps] m t]. cbn. intros -> -> Hd Ht Hb Hp Hk Hc Hwb.
  assert (exists c0 a0, objs m !! l = Some (OInst c0 a0)) as (c0 & a0 & Hl).
  { unfold attr in Hd. destruct (objs m !! l) as [[| |c0 a0]|]; try discriminate. eauto. }
  assert (Hne : p <> l) by (intros ->; rewrite Hl in Hp; discriminate).
  unfold attr in Hd, Hb, Hk. rewrite Hl in Hd, Hb, Hk.
  destruct (setattr_step m l c0 a0 "done" (VBool false) Hl)
    as (m1 & E1 & H1 & O1 & L1).
  assert (G1 : getattr l "done" m = Ok d m)
    by (apply getattr_attr; rewrite (attr_inst _ _ _ _ _ Hl); exact Hd).
  assert (G2 : getattr l "persist" m = Ok (VRef p) m)
    by (apply getattr_attr; rewrite (attr_inst _ _ _ _ _ Hl); exact Hb).
  assert (G4 : getattr l "next_state" m1 = Ok (VStr k) m1).
  { apply getattr_attr. rewrite (attr_inst _ _ _ _ _ H1).
    rewrite lookup_insert_ne by discriminate. exact Hk. }
  set (m2 := set_objs (fun os => os ++ [OInst c ∅]) m1).
  assert (N2 : new_obj (OInst c ∅) m1 = Ok (length (objs m)) m2)
    by (rewrite <- L1; reflexivity).
  assert (H2 : objs m2 !! length (objs m) = Some (OInst c ∅))
    by (apply list_lookup_middle; symmetry; exact L1).
  assert (P2 : objs m2 !! p = Some (ODict kv))
    by (apply lookup_app_l_Some; rewrite O1 by exact Hne; exact Hp).
  destruct (wb_init _ Hwb _ _ _ _ H2) as (m3 & E3 & F3 & Q3).
  destruct (frame_inst _ _ _ _ _ _ F3 H2) as (a3 & H3).
  pose proof (frame_dict _ _ _ _ _ F3 P2) as P3.
  destruct (wb_setup _ Hwb _ _ _ _ _ _ H3 P3) as (m4 & E4 & F4 & B4).
  destruct (frame_inst _ _ _ _ _ _ F4 H3) as (a4 & H4).
  pose proof (frame_dict _ _ _ _ _ F4 P3) as P4.
  assert (Q4 : getattr (length (objs m)) "quit" m4 = Ok (VBool false) m4).
  { apply getattr_attr. rewrite <- Q3.
    apply (frame_attr _ _ _ _ _ F4); [rewrite H3; eauto | tauto]. }
  destruct (wb_update _ Hwb _ dt _ _ _ H4) as (m5 & E5 & F5).
  exists m5. split; [|split; [|split]].
  - driver_unfold. driver_cbn.
    rewrite G1. driver_cbn. rewrite Ht. driver_cbn. rewrite G2. driver_cbn.
    rewrite E1. driver_cbn. rewrite G4. driver_cbn. rewrite Hc. driver_cbn. rewrite N2. driver_cbn.
    rewrite E3. driver_cbn. rewrite (class_of_inst _ _ _ _ H3). driver_cbn.
    rewrite E4. driver_cbn. rewrite Q4. driver_cbn. cbn [truthy]. driver_cbn.
    rewrite (class_of_inst _ _ _ _ H4). driver_cbn. rewrite E5.
    rewrite <- !app_assoc. reflexivity.
  - exact (frame_inst _ _ _ _ _ _ F5 H4).
  - rewrite <- B4. apply (frame_attr _ _ _ _ _ F5); [rewrite H4; eauto | tauto].
  - exact (frame_dict _ _ _ _ _ F5 P4).
Qed.

(** The same frame update, store by store: the old state's [done] is reset,
    the successor is allocated bare and goes through its class's [__init__],
    [setup] and [update], in this order, and what [update] leaves is the
    store the call ends with. *)
Lemma transition_tick_stores w dt l reg d k c p kv :
  Game.state (Game.game w) = Some l ->
  Game.states (Game.game w) = Some reg ->
  attr (Game.mem w) l "done" = Some d ->
  truthy (Game.mem w) d = true ->
  attr (Game.mem w) l "persist" = Some (VRef p) ->
  objs (Game.mem w) !! p = Some (ODict kv) ->
  attr (Game.mem w) l "next_state" = Some (VStr k) ->
  reg !! k = Some c ->
  well_behaved (classes c) ->
  let l' := length (objs (Game.mem w)) in
  exists m1 m3 m4 m',
    Game.update classes dt w
    = Ok tt (Game.World
               (Game.Build (Some reg) (Some l') (Game.persist (Game.game w)))
               m'
               (Game.calls w ++ [Game.New c l'; Game.Setup l' (VRef p);
                                 Game.Update l' dt]))
    /\ setattr l "done" (VBool false) (Game.mem w) = Ok tt m1
    /\ c_init (classes c) l' (set_objs (fun os => os ++ [OInst c ∅]) m1) = Ok tt m3
    /\ c_setup (classes c) l' (VRef p) m3 = Ok tt m4
    /\ c_update (classes c) l' dt m4 = Ok tt m'.
Proof.
  destruct w as [[sts st ps] m t]. cbn. intros -> -> Hd Ht Hb Hp Hk Hc Hwb.
  assert (exists c0 a0, objs m !! l = Some (OInst c0 a0)) as (c0 & a0 & Hl).
  { unfold attr in Hd. destruct (objs m !! l) as [[| |c0 a0]|]; try discriminate. eauto. }
  assert (Hne : p <> l) by (intros ->; rewrite Hl in Hp; discriminate).
  unfold attr in Hd, Hb, Hk. rewrite Hl in Hd, Hb, Hk.
  destruct (setattr_step m l c0 a0 "done" (VBool false) Hl)
    as (m1 & E1 & H1 & O1 & L1).
  assert (G1 : getattr l "done" m = Ok d m)
    by (apply getattr_attr; rewrite (attr_inst _ _ _ _ _ Hl); exact Hd).
  assert (G2 : getattr l "persist" m = Ok (VRef p) m)
    by (apply getattr_attr; rewrite (attr_inst _ _ _ _ _ Hl); exact Hb).
  assert (G4 : getattr l "next_state" m1 = Ok (VStr k) m1).
  { apply getattr_attr. rewrite (attr_inst _ _ _ _ _ H1).
    rewrite lookup_insert_ne by discriminate. exact Hk. }
  set (m2 := set_objs (fun os => os ++ [OInst c ∅]) m1).
  assert (N2 : new_obj (OInst c ∅) m1 = Ok (length (objs m)) m2)
    by (rewrite <- L1; reflexivity).
  assert (H2 : objs m2 !! length (objs m) = Some (OInst c ∅))
    by (apply list_lookup_middle; symmetry; exact L1).
  assert (P2 : objs m2 !! p = Some (ODict kv))
    by (apply lookup_app_l_Some; rewrite O1 by exact Hne; exact Hp).
  destruct (wb_init _ Hwb _ _ _ _ H2) as (m3 & E3 & F3 & Q3).
  destruct (frame_inst _ _ _ _ _ _ F3 H2) as (a3 & H3).
  pose proof (frame_dict _ _ _ _ _ F3 P2) as P3.
  destruct (wb_setup _ Hwb _ _ _ _ _ _ H3 P3) as (m4 & E4 & F4 & B4).
  destruct (frame_inst _ _ _ _ _ _ F4 H3) as (a4 & H4).
  pose proof (frame_dict _ _ _ _ _ F4 P3) as P4.
  assert (Q4 : getattr (length (objs m)) "quit" m4 = Ok (VBool false) m4).
  { apply getattr_attr. rewrite <- Q3.
    apply (frame_attr _ _ _ _ _ F4); [rewrite H3; eauto | tauto]. }
  destruct (wb_update _ Hwb _ dt _ _ _ H4) as (m5 & E5 & F5).
  exists m1, m3, m4, m5. split; [|split; [|split; [|split]]].
  - driver_unfold. driver_cbn.
    rewrite G1. driver_cbn. rewrite Ht. driver_cbn. rewrite G2. driver_cbn.
    rewrite E1. driver_cbn. rewrite G4. driver_cbn. rewrite Hc. driver_cbn. rewrite N2. driver_cbn.
    rewrite E3. driver_cbn. rewrite (class_of_inst _ _ _ _ H3). driver_cbn.
    rewrite E4. driver_cbn. rewrite Q4. driver_cbn. cbn [truthy]. driver_cbn.
    rewrite (class_of_inst _ _ _ _ H4). driver_cbn. rewrite E5.
    rewrite <- !app_assoc. reflexivity.
  - exact E1.
  - exact E3.
  - exact E4.
  - exact E5.
Qed.

(** Without a transition request, the frame update reads [quit] on the
    active state and either quits or forwards the update. *)
Lemma quiet_tick w dt l d q :
  Game.state (Game.game w) = Some l ->
  attr (Game.mem w) l "done" = Some d ->
  truthy (Game.mem w) d = false ->
  attr (Game.mem w) l "quit" = Some q ->
  Game.update classes dt w
  = if truthy (Game.mem w) q then Raise SystemExit w
    else Game.invoke classes l (Game.Update l dt)
           (fun k => c_update k l dt) w.
Proof.
  destruct w as [[sts st ps] m t]. cbn. intros -> Hd Ht Hq.
  pose proof (getattr_attr _ _ _ _ Hd) as G1.
  pose proof (getattr_attr _ _ _ _ Hq) as G2.
  driver_unfold. driver_cbn.
  rewrite G1. driver_cbn. rewrite Ht. driver_cbn.
  rewrite G2. driver_cbn. destruct (truthy m q); reflexivity.
Qed.

(** A passive callback is one hook call on the active state. *)
Lemma deliver_passive e w l :
  passive e ->
  Game.state (Game.game w) = Some l ->
  let w' := final (Game.deliver classes e w) in
  Game.game w' = Game.game w
  /\ Game.calls w' = Game.calls w ++ [forwarded l e].
Proof.
  destruct w as [[sts st ps] m t]. cbn. intros He ->.
  destruct e; try contradiction; cbn [Game.deliver forwarded];
    unfold Game.on_draw, Game.on_key_press, Game.on_key_release, emit;
    driver_unfold; driver_cbn; break_match; split; reflexivity.
Qed.

(** Construction of the [Game] with a registered, well-behaved class. *)
Lemma init_registered width height reg k c m :
  reg !! k = Some c ->
  well_behaved (classes c) ->
  let l := length (objs m) in
  exists m' p,
    Game.__init__ classes width height reg k (Game.boot m)
    = Ok tt (Game.World (Game.Build (Some reg) (Some l) (Some p)) m'
               [Game.New c l; Game.Setup l (VRef p)])
    /\ (exists a, objs m' !! l = Some (OInst c a))
    /\ objs m' !! p = Some (ODict ∅)
    /\ objs m !! p = None
    /\ attr m' l "persist" = Some (VRef p)
    /\ attr m' l "quit" = Some (VBool false)
    /\ exists m1,
         c_init (classes c) l
           (set_objs (fun os => os ++ [OInst c ∅])
              (Store (objs m) (screen m ++ [OpenWindow width height])
                 (entropy m) (drawn m))) = Ok tt m1
         /\ p = length (objs m1)
         /\ c_setup (classes c) l (VRef p)
              (set_objs (fun os => os ++ [ODict ∅]) m1) = Ok tt m'.
Proof.
  intros Hc Hwb l.
  set (m0 := Store (objs m) (screen m ++ [OpenWindow width height])
               (entropy m) (drawn m)).
  set (m1 := set_objs (fun os => os ++ [OInst c ∅]) m0).
  assert (H1 : objs m1 !! l = Some (OInst c ∅))
    by (apply list_lookup_middle; reflexivity).
  destruct (wb_init _ Hwb _ _ _ _ H1) as (m2 & E2 & F2 & Q2).
  destruct (frame_inst _ _ _ _ _ _ F2 H1) as (a2 & H2).
  set (p := length (objs m2)).
  set (m3 := set_objs (fun os => os ++ [ODict ∅]) m2).
  assert (H3 : objs m3 !! l = Some (OInst c a2))
    by (apply lookup_app_l_Some; exact H2).
  assert (P3 : objs m3 !! p = Some (ODict ∅))
    by (apply list_lookup_middle; reflexivity).
  destruct (wb_setup _ Hwb _ _ _ _ _ _ H3 P3) as (m4 & E4 & F4 & B4).
  exists m4, p. split; [|split; [|split; [|split; [|split; [|split]]]]].
  - unfold Game.__init__, Game.boot, emit. driver_unfold. driver_cbn.
    rewrite Hc. driver_cbn. fold m0.
    rewrite (new_obj_eq m0 (OInst c ∅)). fold m1.
    change (length (objs m0)) with l. driver_cbn.
    rewrite E2. driver_cbn.
    rewrite (new_obj_eq m2 (ODict ∅)). fold m3 p. driver_cbn.
    rewrite (class_of_inst _ _ _ _ H3). driver_cbn. rewrite E4. reflexivity.
  - exact (frame_inst _ _ _ _ _ _ F4 H3).
  - exact (frame_dict _ _ _ _ _ F4 P3).
  - apply lookup_ge_None. unfold p.
    apply lookup_lt_Some in H2.
    assert (length (objs m) < length (objs m2))%nat by exact H2. lia.
  - exact B4.
  - rewrite (frame_attr _ _ _ _ "quit" F4); [| rewrite H3; eauto | tauto].
    rewrite (attr_inst _ _ _ _ _ H3). rewrite <- (attr_inst _ _ _ _ _ H2). exact Q2.
  - exists m2. split; [exact E2|]. split; [reflexivity | exact E4].
Qed.

(** Construction of the [Game] with a key the registry does not have. *)
Lemma init_unregistered width height reg k m :
  reg !! k = None ->
  Game.__init__ classes width height reg k (Game.boot m)
  = Raise (KeyError (VStr k))
      (Game.World (Game.Build (Some reg) None None)
         (Store (objs m) (screen m ++ [OpenWindow width height])
            (entropy m) (drawn m))
         []).
Proof.
  intros Hc. unfold Game.__init__, Game.boot, emit. driver_unfold. driver_cbn.
  rewrite Hc. reflexivity.
Qed.

(** A transition request whose [next_state] is not a key of the registry. *)
Lemma bad_transition w dt l reg d :
  Game.state (Game.game w) = Some l ->
  Game.states (Game.game w) = Some reg ->
  attr (Game.mem w) l "done" = Some d ->
  truthy (Game.mem w) d = true ->
  (forall s, attr (Game.mem w) l "next_state" = Some (VStr s) -> reg !! s = None) ->
  exists e w',
    Game.update classes dt w = Raise e w'
    /\ (e = AttributeError "persist" \/ e = AttributeError "next_state"
        \/ (exists ns, attr (Game.mem w) l "next_state" = Some ns /\ e = KeyError ns)
        \/ e = TypeError)
    /\ Game.game w' = Game.game w
    /\ Game.calls w' = Game.calls w.
Proof.
  destruct w as [[sts st ps] m t]. cbn. intros -> -> Hd Ht Hns.
  assert (exists c0 a0, objs m !! l = Some (OInst c0 a0)) as (c0 & a0 & Hl).
  { unfold attr in Hd. destruct (objs m !! l) as [[| |c0 a0]|]; try discriminate. eauto. }
  pose proof (getattr_attr _ _ _ _ Hd) as G1.
  unfold attr in Hns. rewrite Hl in Hns.
  destruct (setattr_step m l c0 a0 "done" (VBool false) Hl)
    as (m1 & E1 & H1 & O1 & L1).
  driver_unfold. driver_cbn. rewrite G1. driver_cbn. rewrite Ht. driver_cbn.
  unfold getattr at 1, bind at 1, deref at 1. rewrite Hl. cbn beta iota.
  destruct (a0 !! "persist") as [b|] eqn:Hb; unfold ret, raise; driver_cbn;
    [|do 2 eexists; repeat split; auto].
  rewrite E1. driver_cbn.
  unfold getattr at 1, bind at 1, deref at 1. rewrite H1. cbn beta iota.
  rewrite lookup_insert_ne by discriminate.
  destruct (a0 !! "next_state") as [ns|] eqn:Hk; unfold ret, raise; driver_cbn;
    [|do 2 eexists; repeat split; auto].
  destruct ns as [| | |s| |]; try rewrite (Hns s eq_refl);
    try destruct (hashable m1 _);
    do 2 eexists; (split; [reflexivity|]); repeat split; unfold attr; rewrite ?Hl; eauto 6.
Qed.
End Transition.

(** * The claims *)

Section Driver_claims.
Context {cname : Type} (classes : cname -> class cname).
Implicit Types (w : Game.world cname) (m : store cname).

(** C1.  When the active state has set [done], [next_state = X] and
    [persist[pk] = v], and [X] is registered for a well-behaved class [c],
    the next frame update returns with a new instance of [c] as active
    state; the Driver has constructed it and called its [setup] with the
    captured bag, and the new active state's [persist[pk]] is [v]. *)
Theorem transition_hands_over_persist w dt l reg d X c p kv pk v :
  Game.state (Game.game w) = Some l ->
  Game.states (Game.game w) = Some reg ->
  attr (Game.mem w) l "done" = Some d ->
  truthy (Game.mem w) d = true ->
  attr (Game.mem w) l "next_state" = Some (VStr X) ->
  attr (Game.mem w) l "persist" = Some (VRef p) ->
  objs (Game.mem w) !! p = Some (ODict kv) ->
  kv !! pk = Some v ->
  reg !! X = Some c ->
  well_behaved (classes c) ->
  exists w' l',
    Game.update classes dt w = Ok tt w'
    /\ Game.state (Game.game w') = Some l'
    /\ objs (Game.mem w) !! l' = None
    /\ active_class w' = Some c
    /\ Game.calls w'
       = Game.calls w ++ [Game.New c l'; Game.Setup l' (VRef p); Game.Update l' dt]
    /\ active_persist w' pk = Some v.
Proof.
  intros Hs Hr Hd Ht Hk Hb Hp Hv Hc Hwb.
  destruct (transition_tick classes w dt l reg d X c p kv Hs Hr Hd Ht Hb Hp Hk Hc Hwb)
    as (m' & E & (a' & Hl') & Hb' & Hp').
  eexists. exists (length (objs (Game.mem w))). split; [exact E|].
  unfold active_class, active_persist, entry. cbn.
  rewrite Hl', Hb', Hp'. repeat split; try assumption.
  apply lookup_ge_None. lia.
Qed.

(** In a frame update in which the active state's [done] flag is not set:
    if its [quit] flag is set the Driver raises [SystemExit] and nothing else
    happens that tick (no transition, no hook call, the world is as it was);
    if its [quit] flag is not set either, there is no transition and the
    only call is [update] on the active state. *)
Theorem quit_without_done_terminates w dt l d q :
  Game.state (Game.game w) = Some l ->
  attr (Game.mem w) l "done" = Some d ->
  truthy (Game.mem w) d = false ->
  attr (Game.mem w) l "quit" = Some q ->
  (truthy (Game.mem w) q = true ->
   Game.update classes dt w = Raise SystemExit w)
  /\ (truthy (Game.mem w) q = false ->
      let w' := final (Game.update classes dt w) in
      Game.game w' = Game.game w
      /\ Game.calls w' = Game.calls w ++ [Game.Update l dt]).
Proof.
  intros Hs Hd Ht Hq. rewrite (quiet_tick classes w dt l d q Hs Hd Ht Hq).
  split; intros ->; [reflexivity|].
  destruct w as [g m t]. unfold Game.invoke, Game.lift, Game.log, bind, modify.
  cbn [Game.mem Game.game Game.calls].
  break_match; split; reflexivity.
Qed.

(** C3.  Whatever the classes and the world, one frame update constructs
    at most one state: the calls it makes extend the record by a list that
    holds at most one construction.  This does not depend on the flags of
    the state it installs, which are next read by the following update. *)
Theorem one_transition_per_update dt w :
  exists t, Game.calls (final (Game.update classes dt w)) = Game.calls w ++ t
            /\ (transitions t <= 1)%nat.
Proof. apply update_trace. Qed.

(** C5.  Constructing the [Game] with a key absent from the registry raises
    [KeyError] on that key at once: no state is constructed and no hook is
    called.  With a key registered for a well-behaved class [c] it returns:
    the active state is a new instance of [c]; [c]'s [__init__] has run on
    it as allocated, then [c]'s [setup] with a new, empty dictionary, and
    what [setup] leaves is the store the construction ends with; in it the
    state's [quit] is [False] and its [persist] is that dictionary. *)
Theorem game_init_checks_initial_state width height reg k m :
  (reg !! k = None ->
   exists w', Game.__init__ classes width height reg k (Game.boot m)
              = Raise (KeyError (VStr k)) w'
              /\ Game.state (Game.game w') = None
              /\ Game.calls w' = []
              /\ objs (Game.mem w') = objs m)
  /\ (forall c, reg !! k = Some c -> well_behaved (classes c) ->
      exists w' l p,
        Game.__init__ classes width height reg k (Game.boot m) = Ok tt w'
        /\ Game.game w' = Game.Build (Some reg) (Some l) (Some p)
        /\ active_class w' = Some c
        /\ Game.calls w' = [Game.New c l; Game.Setup l (VRef p)]
        /\ objs m !! l = None /\ objs m !! p = None
        /\ objs (Game.mem w') !! p = Some (ODict ∅)
        /\ attr (Game.mem w') l "persist" = Some (VRef p)
        /\ attr (Game.mem w') l "quit" = Some (VBool false)
        /\ exists m1,
             c_init (classes c) l
               (set_objs (fun os => os ++ [OInst c ∅])
                  (Store (objs m) (screen m ++ [OpenWindow width height])
                     (entropy m) (drawn m))) = Ok tt m1
             /\ p = length (objs m1)
             /\ c_setup (classes c) l (VRef p)
                  (set_objs (fun os => os ++ [ODict ∅]) m1) = Ok tt (Game.mem w')).
Proof.
  split.
  - intros Hk. eexists. split; [apply init_unregistered; exact Hk|].
    repeat split.
  - intros c Hc Hwb.
    destruct (init_registered classes width height reg k c m Hc Hwb)
      as (m' & p & E & (a & Hl) & Hp & Hfresh & Hb & Hq & Hsteps).
    do 3 eexists. split; [exact E|].
    unfold active_class. cbn. rewrite Hl.
    split; [reflexivity|]. split; [reflexivity|]. split; [reflexivity|].
    split; [apply lookup_ge_None; lia|].
    split; [exact Hfresh|]. split; [exact Hp|]. split; [exact Hb|].
    split; [exact Hq | exact Hsteps].
Qed.

(** C6.  When the active state has set [done] but its [next_state] is not a
    key of the registry, the next frame update raises ([KeyError] on that
    value, [TypeError] if it cannot be a key, [AttributeError] if the
    attribute is missing): the transition is not skipped in silence, the
    active state is not replaced and no hook is called. *)
Theorem invalid_next_state_fails_fast w dt l reg d :
  Game.state (Game.game w) = Some l ->
  Game.states (Game.game w) = Some reg ->
  attr (Game.mem w) l "done" = Some d ->
  truthy (Game.mem w) d = true ->
  (forall s, attr (Game.mem w) l "next_state" = Some (VStr s) -> reg !! s = None) ->
  exists e w',
    Game.update classes dt w = Raise e w'
    /\ (e = AttributeError "persist" \/ e = AttributeError "next_state"
        \/ (exists ns, attr (Game.mem w) l "next_state" = Some ns /\ e = KeyError ns)
        \/ e = TypeError)
    /\ Game.game w' = Game.game w
    /\ Game.calls w' = Game.calls w.
Proof. apply bad_transition. Qed.

(** C7.  Any sequence of draw, key-press and key-release callbacks leaves the
    [Game]'s attributes, hence the identity of the active state, as they
    were; all the Driver does for them is to call the matching hook on the
    active state, one call per callback, until one of them raises. *)
Theorem passive_callbacks_keep_active_state es w l :
  Forall passive es ->
  Game.state (Game.game w) = Some l ->
  let w' := final (Game.run classes es w) in
  Game.game w' = Game.game w
  /\ exists n, Game.calls w' = Game.calls w ++ take n (map (forwarded l) es).
Proof.
  intros Hes. revert w. induction Hes as [|e es He Hes IH]; intros w Hs; cbn.
  - split; [reflexivity|]. exists 0%nat. rewrite app_nil_r. reflexivity.
  - destruct (deliver_passive classes e w l He Hs) as [Hg Hc].
    unfold bind. destruct (Game.deliver classes e w) as [[] w1|x w1]; cbn in *.
    + rewrite <- Hg in Hs. destruct (IH w1 Hs) as [Hg' [n Hn]].
      split; [congruence|]. exists (S n). rewrite Hn, Hc, <- app_assoc.
      reflexivity.
    + split; [assumption|]. exists 1%nat. rewrite Hc. reflexivity.
Qed.

(** C8.  When the frame update performs a transition to a well-behaved
    class, the successor, a new object different from the replaced state,
    goes through its class's [__init__], [setup] with the captured bag and
    [update] with that call's [delta_time] within the same call, in this
    order, and the store the call ends with is the one that [update] on the
    successor leaves; the replaced state is not updated. *)
Theorem transition_updates_successor w dt l reg d X c p kv :
  Game.state (Game.game w) = Some l ->
  Game.states (Game.game w) = Some reg ->
  attr (Game.mem w) l "done" = Some d ->
  truthy (Game.mem w) d = true ->
  attr (Game.mem w) l "next_state" = Some (VStr X) ->
  attr (Game.mem w) l "persist" = Some (VRef p) ->
  objs (Game.mem w) !! p = Some (ODict kv) ->
  reg !! X = Some c ->
  well_behaved (classes c) ->
  exists w' l' t,
    Game.update classes dt w = Ok tt w'
    /\ Game.state (Game.game w') = Some l'
    /\ l' <> l
    /\ Game.calls w' = Game.calls w ++ t
    /\ t = [Game.New c l'; Game.Setup l' (VRef p); Game.Update l' dt]
    /\ (forall dt', ~ In (Game.Update l dt') t)
    /\ objs (Game.mem w) !! l' = None
    /\ exists m1 m3 m4,
         setattr l "done" (VBool false) (Game.mem w) = Ok tt m1
         /\ c_init (classes c) l' (set_objs (fun os => os ++ [OInst c ∅]) m1)
            = Ok tt m3
         /\ c_setup (classes c) l' (VRef p) m3 = Ok tt m4
         /\ c_update (classes c) l' dt m4 = Ok tt (Game.mem w').
Proof.
  intros Hs Hr Hd Ht Hk Hb Hp Hc Hwb.
  destruct (transition_tick_stores classes w dt l reg d X c p kv
              Hs Hr Hd Ht Hb Hp Hk Hc Hwb)
    as (m1 & m3 & m4 & m' & E & E1 & E3 & E4 & E5).
  assert (Hlt : (l < length (objs (Game.mem w)))%nat).
  { unfold attr in Hd. apply lookup_lt_is_Some.
    destruct (objs (Game.mem w) !! l); [eauto | discriminate]. }
  do 3 eexists. split; [exact E|]. cbn.
  split; [reflexivity|]. split; [lia|]. split; [reflexivity|].
  split; [reflexivity|]. split; [|split].
  - intros dt' [H|[H|[H|[]]]]; try discriminate. injection H as H _. lia.
  - apply lookup_ge_None. lia.
  - exists m1, m3, m4. repeat split; assumption.
Qed.
End Driver_claims.

(** ** The program's own classes *)

Lemma screens_init_framed c l :
  framed (assigns ["persist"; "next_state"; "done"; "quit"]) (c_init (classes c) l).
Proof. destruct c; apply State_init_framed. Qed.

Lemma screens_setup_framed c l bag :
  framed (assigns ["persist"; "text"; "text_position"]) (c_setup (classes c) l bag).
Proof.
  destruct c; cbn.
  - intros m. eapply frame_mono; [|apply State_setup_framed]. cbn. tauto.
  - apply MainMenu_setup_framed.
  - apply Scene_setup_framed.
Qed.

Lemma screens_update_framed c l dt :
  framed (assigns ["col"]) (c_update (classes c) l dt).
Proof.
  destruct c; cbn.
  - apply framed_ret.
  - apply MainMenu_update_framed.
  - apply Scene_update_framed.
Qed.

Lemma screens_draw_framed c l :
  framed (assigns []) (c_draw (classes c) l).
Proof.
  destruct c; cbn.
  - apply framed_ret.
  - apply MainMenu_draw_framed.
  - apply Scene_draw_framed.
Qed.

Lemma frame_flags_kept (names : list string) (m m' : store cname) :
  (forall n, In n ["done"; "quit"; "next_state"; "persist"] -> ~ In n names) ->
  frame (assigns names) m m' -> flags_kept m m'.
Proof.
  intros Hnames F. split.
  - intros p n Hp Hn. apply (frame_attr _ _ _ _ _ F Hp). apply Hnames, Hn.
  - intros p d Hp. exact (frame_dict _ _ _ _ _ F Hp).
Qed.

(** C4, as amended.  With the registry of [main] and "MAIN" as initial state,
    a key press of SPACE leaves [MainMenu] active; the frame update that
    follows returns with a [Scene] as active state, and
    [persist["text_position"]] is then the list [[10, 310]]: the default
    position [[0, 300]] moved by 10 on both axes.  This holds whatever the
    modifiers, the elapsed time and the random draws. *)
Theorem space_then_update_enters_scene rnd mods dt :
  let r1 := play rnd [Game.EKeyPress key.SPACE mods] in
  let r2 := play rnd [Game.EKeyPress key.SPACE mods; Game.EUpdate dt] in
  raised r1 = None
  /\ active_class (final r1) = Some MainMenu_class
  /\ raised r2 = None
  /\ active_class (final r2) = Some Scene_class
  /\ text_position_of (final r2) = Some [VInt 10; VInt 310].
Proof. cbv zeta. repeat split; vm_compute; reflexivity. Qed.

(** C9.  On an instance of [MainMenu] or [Scene] as the constructor and
    [setup] leave it, [draw] raises [AttributeError] on [col], which only
    [update] assigns; nothing is drawn. *)
Theorem draw_before_update_fails c l m bag m1 m2 :
  c = MainMenu_class \/ c = Scene_class ->
  objs m !! l = Some (OInst c ∅) ->
  c_init (classes c) l m = Ok tt m1 ->
  c_setup (classes c) l bag m1 = Ok tt m2 ->
  c_draw (classes c) l m2 = Raise (AttributeError "col") m2.
Proof.
  intros Hc Hl E1 E2.
  pose proof (screens_init_framed c l m) as F1. rewrite E1 in F1.
  pose proof (screens_setup_framed c l bag m1) as F2. rewrite E2 in F2.
  cbn [final] in F1, F2.
  destruct (F1 _ _ Hl) as (a1 & H1 & A1).
  destruct (F2 _ _ H1) as (a2 & H2 & A2).
  assert (Hcol : a2 !! "col" = None).
  { rewrite A2, A1; [reflexivity| |]; cbn; intuition discriminate. }
  destruct Hc as [-> | ->];
    [change (MainMenu.draw l m2 = Raise (AttributeError "col") m2)
    |change (Scene.draw l m2 = Raise (AttributeError "col") m2)];
    unfold MainMenu.draw, Scene.draw, getattr, deref, bind; cbn beta;
    rewrite H2; cbn beta iota; rewrite Hcol; reflexivity.
Qed.

(** C10.  For [MainMenu] and [Scene]: a key press other than SPACE and
    ESCAPE returns and leaves the store as it was, and so does any key
    release; [update] and [draw], however they end, leave [done], [quit],
    [next_state] and [persist] of every object, and every dictionary, as they
    were. *)
Theorem only_key_down_sets_flags c l m :
  c = MainMenu_class \/ c = Scene_class ->
  (forall k mods, k <> key.SPACE -> k <> key.ESCAPE ->
                  c_key_down (classes c) l k mods m = Ok tt m)
  /\ (forall k mods, c_key_release (classes c) l k mods m = Ok tt m)
  /\ (forall dt, flags_kept m (final (c_update (classes c) l dt m)))
  /\ flags_kept m (final (c_draw (classes c) l m)).
Proof.
  intros Hc. repeat split.
  - intros k mods Hs He.
    apply Z.eqb_neq in Hs, He.
    destruct Hc as [-> | ->]; cbn; unfold MainMenu.key_down, Scene.key_down, bind;
      rewrite Hs, He; reflexivity.
  - intros k mods. destruct Hc as [-> | ->]; reflexivity.
  - apply (frame_flags_kept ["col"]); [|apply screens_update_framed].
    cbn. intuition (subst; discriminate).
  - apply (frame_flags_kept ["col"]); [|apply screens_update_framed].
    cbn. intuition (subst; discriminate).
  - apply (frame_flags_kept []); [|apply screens_draw_framed].
    cbn. tauto.
  - apply (frame_flags_kept []); [|apply screens_draw_framed].
    cbn. tauto.
Qed.

(** ** The claims on runs of the program *)

(** C2.  [check_state] says that the program quits if [quit] is set, but it
    tests [done] first and reads [quit] only afterwards, on whatever state is
    then active.  ESCAPE then SPACE on the main menu set both flags on it;
    the frame update that follows does not quit: it performs the transition,
    finds [quit] false on the new [Scene], and updates it (the scene gets its
    [col]).  The request to quit stays on the replaced state, which nothing
    reads again: a later update does not quit either. *)
Lemma quit_flag_lost_by_transition :
  let w := final (play (fun _ => 0)
                    [Game.EKeyPress key.ESCAPE 0; Game.EKeyPress key.SPACE 0]) in
  let r := Game.update classes (VInt 16) w in
  let r' := Game.update classes (VInt 16) (final r) in
  Game.state (Game.game w) = Some 0%nat
  /\ attr (Game.mem w) 0 "quit" = Some (VBool true)
  /\ attr (Game.mem w) 0 "done" = Some (VBool true)
  /\ raised r = None
  /\ Game.state (Game.game (final r)) = Some 4%nat
  /\ active_class (final r) = Some Scene_class
  /\ Game.calls (final r)
     = Game.calls w ++ [Game.New Scene_class 4; Game.Setup 4 (VRef 2);
                        Game.Update 4 (VInt 16)]
  /\ attr (Game.mem (final r)) 4 "col"
     = Some (VTuple [VInt 150; VInt 255; VInt 150])
  /\ attr (Game.mem (final r)) 4 "quit" = Some (VBool false)
  /\ attr (Game.mem (final r)) 0 "quit" = Some (VBool true)
  /\ raised r' = None
  /\ Game.calls (final r') = Game.calls (final r) ++ [Game.Update 4 (VInt 16)].
Proof. cbv zeta. repeat split; vm_compute; reflexivity. Qed.

(** C4, as stated, fails: from the default position [[0, 300]] the list after
    SPACE is [[10, 310]], not [[10, 10]]. *)
Lemma text_position_after_space_is_not_10_10 :
  let w := final (play (fun _ => 0)
                    [Game.EKeyPress key.SPACE 0; Game.EUpdate (VInt 16)]) in
  text_position_of w = Some [VInt 10; VInt 310]
  /\ text_position_of w <> Some [VInt 10; VInt 10].
Proof.
  cbv zeta. split.
  - vm_compute. reflexivity.
  - intros H. vm_compute in H. discriminate H.
Qed.

(** A state that is born with [done] set is installed by one frame update and
    stays active, its flag still set, until the next one. *)
Example born_done_state_waits_for_next_update :
  let w := final Hasty.start in
  let r := Game.update Hasty.classes (VInt 16) w in
  raised Hasty.start = None
  /\ Game.state (Game.game w) = Some 0%nat
  /\ attr (Game.mem w) 0 "done" = Some (VBool true)
  /\ raised r = None
  /\ Game.calls (final r)
     = Game.calls w ++ [Game.New Hasty.Loop 3; Game.Setup 3 (VRef 2);
                        Game.Update 3 (VInt 16)]
  /\ Game.state (Game.game (final r)) = Some 3%nat
  /\ attr (Game.mem (final r)) 3 "done" = Some (VBool true).
Proof. cbv zeta. repeat split; vm_compute; reflexivity. Qed.

(** A draw delivered right after start-up, before any update, fails on the
    main menu. *)
Example draw_at_startup_fails :
  raised (play (fun _ => 0) [Game.EDraw]) = Some (AttributeError "col").
Proof. vm_compute. reflexivity. Qed.

(** ** Instances *)

(** The transition from the main menu to the scene, after SPACE. *)
Lemma transition_hands_over_persist_witness :
  let w := final (play (fun _ => 0) [Game.EKeyPress key.SPACE 0]) in
  exists w' l',
    Game.update classes (VInt 16) w = Ok tt w'
    /\ Game.state (Game.game w') = Some l'
    /\ objs (Game.mem w) !! l' = None
    /\ active_class w' = Some Scene_class
    /\ Game.calls w'
       = Game.calls w ++ [Game.New Scene_class l'; Game.Setup l' (VRef 2);
                          Game.Update l' (VInt 16)]
    /\ active_persist w' "text_position" = Some (VRef 3).
Proof.
  cbv zeta.
  apply (transition_hands_over_persist classes _ (VInt 16) 0%nat game_states
           (VBool true) "SCENE" Scene_class 2%nat
           (<["text_position" := VRef 3]> ∅) "text_position" (VRef 3)).
  all: try (vm_compute; reflexivity).
  apply classes_well_behaved.
Defined.

(** ESCAPE on the main menu: the next frame update quits. *)
Lemma quit_without_done_terminates_witness :
  let w := final (play (fun _ => 0) [Game.EKeyPress key.ESCAPE 0]) in
  Game.update classes (VInt 16) w = Raise SystemExit w.
Proof.
  cbv zeta.
  refine (proj1 (quit_without_done_terminates classes _ (VInt 16) 0%nat
                   (VBool false) (VBool true) _ _ _ _) _).
  all: vm_compute; reflexivity.
Defined.

(** The registry of [main] has no "OPTIONS"; it has "MAIN". *)
Lemma game_init_checks_initial_state_witness :
  (exists w',
     Game.__init__ classes WIDTH HEIGHT game_states "OPTIONS"
       (Game.boot (fresh_store (fun _ => 0)))
     = Raise (KeyError (VStr "OPTIONS")) w'
     /\ Game.state (Game.game w') = None
     /\ Game.calls w' = []
     /\ objs (Game.mem w') = [])
  /\ (exists w' l p,
        Game.__init__ classes WIDTH HEIGHT game_states "MAIN"
          (Game.boot (fresh_store (fun _ => 0))) = Ok tt w'
        /\ Game.game w' = Game.Build (Some game_states) (Some l) (Some p)
        /\ active_class w' = Some MainMenu_class
        /\ Game.calls w' = [Game.New MainMenu_class l; Game.Setup l (VRef p)]
        /\ objs (fresh_store (fun _ => 0)) !! l = None
        /\ objs (fresh_store (fun _ => 0)) !! p = None
        /\ objs (Game.mem w') !! p = Some (ODict ∅)
        /\ attr (Game.mem w') l "persist" = Some (VRef p)
        /\ attr (Game.mem w') l "quit" = Some (VBool false)
        /\ exists m1,
             c_init (classes MainMenu_class) l
               (set_objs (fun os => os ++ [OInst MainMenu_class ∅])
                  (Store [] [OpenWindow WIDTH HEIGHT] (fun _ => 0) 0)) = Ok tt m1
             /\ p = length (objs m1)
             /\ c_setup (classes MainMenu_class) l (VRef p)
                  (set_objs (fun os => os ++ [ODict ∅]) m1) = Ok tt (Game.mem w')).
Proof.
  split.
  - apply (proj1 (game_init_checks_initial_state classes WIDTH HEIGHT game_states
                    "OPTIONS" (fresh_store (fun _ => 0)))).
    vm_compute. reflexivity.
  - apply (proj2 (game_init_checks_initial_state classes WIDTH HEIGHT game_states
                    "MAIN" (fresh_store (fun _ => 0))) MainMenu_class).
    + vm_compute. reflexivity.
    + apply classes_well_behaved.
Defined.

(** A registry without "SCENE": the main menu asks for it on SPACE. *)
Lemma invalid_next_state_fails_fast_witness :
  let reg : gmap string cname := <["MAIN" := MainMenu_class]> ∅ in
  let w := final ((Game.__init__ classes WIDTH HEIGHT reg "MAIN" >>
                   Game.on_key_press classes key.SPACE 0)
                    (Game.boot (fresh_store (fun _ => 0)))) in
  exists e w',
    Game.update classes (VInt 16) w = Raise e w'
    /\ (e = AttributeError "persist" \/ e = AttributeError "next_state"
        \/ (exists ns, attr (Game.mem w) 0 "next_state" = Some ns /\ e = KeyError ns)
        \/ e = TypeError)
    /\ Game.game w' = Game.game w
    /\ Game.calls w' = Game.calls w.
Proof.
  cbv zeta.
  apply (invalid_next_state_fails_fast classes _ (VInt 16) 0%nat
           (<["MAIN" := MainMenu_class]> ∅) (VBool true)).
  1-4: vm_compute; reflexivity.
  intros s H. vm_compute in H. injection H as <-. vm_compute. reflexivity.
Defined.

(** A key pressed and released, then a draw, at start-up. *)
Lemma passive_callbacks_keep_active_state_witness :
  let w := final (play (fun _ => 0) []) in
  let es := [Game.EKeyPress 97 0; Game.EKeyRelease 97 0; Game.EDraw] in
  let w' := final (Game.run classes es w) in
  Game.game w' = Game.game w
  /\ exists n, Game.calls w' = Game.calls w ++ take n (map (forwarded 0) es).
Proof.
  cbv zeta.
  apply (passive_callbacks_keep_active_state classes
           [Game.EKeyPress 97 0; Game.EKeyRelease 97 0; Game.EDraw] _ 0%nat).
  - repeat constructor.
  - vm_compute. reflexivity.
Defined.

(** The scene is set up and updated in the tick that installs it. *)
Lemma transition_updates_successor_witness :
  let w := final (play (fun _ => 0) [Game.EKeyPress key.SPACE 0]) in
  exists w' l' t,
    Game.update classes (VInt 16) w = Ok tt w'
    /\ Game.state (Game.game w') = Some l'
    /\ l' <> 0%nat
    /\ Game.calls w' = Game.calls w ++ t
    /\ t = [Game.New Scene_class l'; Game.Setup l' (VRef 2); Game.Update l' (VInt 16)]
    /\ (forall dt', ~ In (Game.Update 0 dt') t)
    /\ objs (Game.mem w) !! l' = None
    /\ exists m1 m3 m4,
         setattr 0%nat "done" (VBool false) (Game.mem w) = Ok tt m1
         /\ c_init (classes Scene_class) l'
              (set_objs (fun os => os ++ [OInst Scene_class ∅]) m1) = Ok tt m3
         /\ c_setup (classes Scene_class) l' (VRef 2) m3 = Ok tt m4
         /\ c_update (classes Scene_class) l' (VInt 16) m4 = Ok tt (Game.mem w').
Proof.
  cbv zeta.
  apply (transition_updates_successor classes _ (VInt 16) 0%nat game_states
           (VBool true) "SCENE" Scene_class 2%nat
           (<["text_position" := VRef 3]> ∅)).
  all: try (vm_compute; reflexivity).
  apply classes_well_behaved.
Defined.

(** A main menu built and set up by hand, then drawn. *)
Lemma draw_before_update_fails_witness :
  let m : store cname := Store [OInst MainMenu_class ∅; ODict ∅] [] (fun _ => 0) 0 in
  let m1 := final (c_init (classes MainMenu_class) 0%nat m) in
  let m2 := final (c_setup (classes MainMenu_class) 0%nat (VRef 1) m1) in
  c_draw (classes MainMenu_class) 0%nat m2 = Raise (AttributeError "col") m2.
Proof.
  cbv zeta.
  apply (draw_before_update_fails MainMenu_class 0%nat
           (Store [OInst MainMenu_class ∅; ODict ∅] [] (fun _ => 0) 0) (VRef 1)
           (final (c_init (classes MainMenu_class) 0%nat
                     (Store [OInst MainMenu_class ∅; ODict ∅] [] (fun _ => 0) 0)))).
  - left. reflexivity.
  - reflexivity.
  - vm_compute. reflexivity.
  - vm_compute. reflexivity.
Defined.

(** The key [a] on the main menu. *)
Lemma only_key_down_sets_flags_witness :
  let m := Game.mem (final (play (fun _ => 0) [])) in
  c_key_down (classes MainMenu_class) 0%nat 97 0 m = Ok tt m.
Proof.
  cbv zeta.
  apply (proj1 (only_key_down_sets_flags MainMenu_class 0%nat _
                  (or_introl eq_refl))); discriminate.
Defined.


(** * Further properties of the code *)

(** ** The Driver's own attributes *)

Section Driver_attributes.
Context {cname : Type} (classes : cname -> class cname).
Implicit Types (w : Game.world cname) (m : store cname).

Ltac driver_unfold :=
  unfold Game.update, Game.check_state, Game.flip_state, Game.construct,
    Game.on_draw, Game.on_key_press, Game.on_key_release,
    Game.invoke, Game.lift, Game.log, Game.quit, Game.truth, Game.subscript,
    Game.self_state, Game.self_states, Game.self_persist, Game.set_state,
    Game.set_states, Game.set_persist, Game.set_game,
    Game.self_attr, emit, bind, ret, raise, gets, modify.

Lemma deliver_keeps_registry e w :
  let w' := final (Game.deliver classes e w) in
  Game.states (Game.game w') = Game.states (Game.game w)
  /\ Game.persist (Game.game w') = Game.persist (Game.game w)
  /\ (is_Some (Game.state (Game.game w)) -> is_Some (Game.state (Game.game w'))).
Proof.
  destruct w as [[sts st ps] m t]. destruct e; cbn [Game.deliver];
    driver_unfold;
    cbn [Game.mem Game.game Game.calls Game.state Game.states Game.persist final];
    break_match; repeat split; intros [? ?]; try discriminate; eauto.
Qed.

(** X1.  No callback reassigns [states] or [persist] of the [Game], and the
    [state] attribute, once set, stays set: this holds after any sequence of
    callbacks, for any classes, however the sequence ends. *)
Theorem callbacks_keep_registry_and_bag es w :
  let w' := final (Game.run classes es w) in
  Game.states (Game.game w') = Game.states (Game.game w)
  /\ Game.persist (Game.game w') = Game.persist (Game.game w)
  /\ (is_Some (Game.state (Game.game w)) -> is_Some (Game.state (Game.game w'))).
Proof.
  revert w. induction es as [|e es IH]; intros w; cbn.
  - repeat split; auto.
  - destruct (deliver_keeps_registry e w) as (Hs & Hp & Hl).
    unfold bind. destruct (Game.deliver classes e w) as [[] w1|x w1]; cbn in *.
    + destruct (IH w1) as (Hs' & Hp' & Hl').
      repeat split; [congruence | congruence | auto].
    + repeat split; assumption.
Qed.
End Driver_attributes.

(** ** Objects keep their sort *)

Section Kept_facts.
Context {cname : Type}.
Implicit Types (m : store cname).

Lemma same_kind_refl (o : obj cname) : same_kind o o.
Proof. destruct o; cbn; auto. Qed.

Lemma same_kind_trans (o1 o2 o3 : obj cname) :
  same_kind o1 o2 -> same_kind o2 o3 -> same_kind o1 o3.
Proof. destruct o1, o2, o3; cbn; try tauto; congruence. Qed.

Lemma kept_refl m : kept m m.
Proof. intros p o H. exists o. split; [exact H | apply same_kind_refl]. Qed.

Lemma kept_trans m1 m2 m3 : kept m1 m2 -> kept m2 m3 -> kept m1 m3.
Proof.
  intros H12 H23 p o H. destruct (H12 p o H) as (o' & H' & K').
  destruct (H23 p o' H') as (o'' & H'' & K'').
  exists o''. split; [exact H'' | eapply same_kind_trans; eassumption].
Qed.

Lemma kept_same_objs m m' : objs m' = objs m -> kept m m'.
Proof. intros E p o H. rewrite E. apply (kept_refl m p o H). Qed.

Lemma kept_alloc m o : kept m (set_objs (fun os => os ++ [o]) m).
Proof.
  intros p o' H. exists o'. split; [|apply same_kind_refl].
  cbn. apply lookup_app_l_Some. exact H.
Qed.

(** Overwriting an object by one of the same sort. *)
Lemma kept_write m l o o' :
  objs m !! l = Some o -> same_kind o o' ->
  kept m (set_objs (fun os => <[l := o']> os) m).
Proof.
  intros Hl K p x H. cbn. destruct (decide (p = l)) as [->|Hne].
  - rewrite Hl in H. injection H as <-. exists o'. split; [|exact K].
    apply list_lookup_insert_eq. eapply lookup_lt_Some; exact Hl.
  - exists x. split; [|apply same_kind_refl].
    rewrite list_lookup_insert_ne by congruence. exact H.
Qed.

Lemma kept_inst m m' l c a :
  kept m m' -> objs m !! l = Some (OInst c a) ->
  exists a', objs m' !! l = Some (OInst c a').
Proof.
  intros K H. destruct (K l _ H) as (o' & H' & S').
  destruct o' as [| |c' a']; cbn in S'; try contradiction. subst c'. eauto.
Qed.

Lemma kinded_ret {A} (a : A) : kinded (ret a : M (store cname) A).
Proof. intros m. apply kept_refl. Qed.

Lemma kinded_raise {A} e : kinded (raise e : M (store cname) A).
Proof. intros m. apply kept_refl. Qed.

Lemma kinded_bind {A B} (h : M (store cname) A) (k : A -> M (store cname) B) :
  kinded h -> (forall a, kinded (k a)) -> kinded (bind h k).
Proof.
  intros Hh Hk m. unfold bind. specialize (Hh m).
  destruct (h m) as [a s|e s]; cbn in *.
  - eapply kept_trans; [exact Hh | apply Hk].
  - exact Hh.
Qed.

(** A computation that leaves the heap alone. *)
Lemma kinded_reader {A} (h : M (store cname) A) :
  (forall m, objs (final (h m)) = objs m) -> kinded h.
Proof. intros H m. apply kept_same_objs, H. Qed.

Lemma kinded_deref l : kinded (deref l : M (store cname) _).
Proof. apply kinded_reader. intros m. unfold deref. destruct (objs m !! l); reflexivity. Qed.

Lemma kinded_getattr l n : kinded (getattr l n : M (store cname) _).
Proof.
  apply kinded_reader. intros m. unfold getattr, bind, deref, ret, raise.
  break_match; reflexivity.
Qed.

Lemma kinded_class_of l : kinded (class_of l : M (store cname) _).
Proof.
  apply kinded_reader. intros m. unfold class_of, bind, deref, ret, raise.
  break_match; reflexivity.
Qed.

Lemma kinded_attr_get d : kinded (attr_get d : M (store cname) _).
Proof.
  apply kinded_reader. intros m. unfold attr_get, bind, deref, ret, raise.
  break_match; reflexivity.
Qed.

Lemma kinded_call_get g k v : kinded (call_get g k v : M (store cname) _).
Proof.
  apply kinded_reader. intros m. unfold call_get, bind, deref, ret, raise.
  break_match; reflexivity.
Qed.

Lemma kinded_getitem v i : kinded (getitem v i : M (store cname) _).
Proof.
  apply kinded_reader. intros m. unfold getitem, bind, deref, ret, raise.
  break_match; reflexivity.
Qed.

Lemma kinded_randint a b : kinded (randint a b : M (store cname) _).
Proof. apply kinded_reader. reflexivity. Qed.

Lemma kinded_emit g : kinded (emit g : M (store cname) _).
Proof. apply kinded_reader. reflexivity. Qed.

Lemma kinded_new_obj o : kinded (new_obj o : M (store cname) _).
Proof. intros m. apply kept_alloc. Qed.

Lemma kinded_setattr l n v : kinded (setattr l n v : M (store cname) _).
Proof.
  intros m. unfold setattr, bind, deref, write, modify, raise.
  destruct (objs m !! l) as [[| |c a]|] eqn:Hl; cbn; try apply kept_refl.
  eapply kept_write; [exact Hl | reflexivity].
Qed.

Lemma kinded_setitem_str d k v : kinded (setitem_str d k v : M (store cname) _).
Proof.
  intros m. unfold setitem_str, bind, deref, write, modify, raise.
  destruct d; try apply kept_refl.
  destruct (objs m !! l) as [[| |c a]|] eqn:Hl; cbn; try apply kept_refl.
  eapply kept_write; [exact Hl | exact I].
Qed.

Lemma kinded_iadd_item v i n : kinded (iadd_item v i n : M (store cname) _).
Proof.
  intros m. unfold iadd_item, add_int, bind, deref, write, modify, ret, raise.
  destruct v; try apply kept_refl.
  - destruct (String.get i s); apply kept_refl.
  - destruct (vs !! i) as [[]|]; apply kept_refl.
  - destruct (objs m !! l) as [[xs| |c a]|] eqn:Hl; cbn; try apply kept_refl.
    destruct (xs !! i) as [[]|]; cbn; try apply kept_refl;
      (eapply kept_write; [exact Hl | exact I]).
Qed.
End Kept_facts.

Create HintDb kinded.
#[local] Hint Resolve kinded_ret kinded_raise kinded_deref kinded_getattr
  kinded_class_of kinded_attr_get kinded_call_get kinded_getitem kinded_randint
  kinded_emit kinded_new_obj kinded_setattr kinded_setitem_str kinded_iadd_item
  : kinded.

Ltac kinded :=
  repeat first
    [ solve [auto with kinded]
    | apply kinded_bind; [|intros]
    | match goal with |- kinded (if ?b then _ else _) => destruct b end ].

Lemma State_kinded {cname} : kinded_class (State.methods (cname := cname)).
Proof.
  repeat split; intros; cbn;
    unfold State.__init__, State.setup, State.key_down, State.key_release,
      State.update, State.draw; kinded.
Qed.

Lemma MainMenu_kinded {cname} : kinded_class (MainMenu.methods (cname := cname)).
Proof.
  repeat split; intros; cbn;
    unfold MainMenu.__init__, State.__init__, MainMenu.setup, MainMenu.key_down,
      State.key_release, MainMenu.update, MainMenu.draw; kinded.
Qed.

Lemma Scene_kinded {cname} : kinded_class (Scene.methods (cname := cname)).
Proof.
  repeat split; intros; cbn;
    unfold Scene.__init__, State.__init__, Scene.setup, Scene.key_down,
      State.key_release, Scene.update, Scene.draw; kinded.
Qed.

Lemma classes_kinded c : kinded_class (classes c).
Proof. destruct c; [apply State_kinded | apply MainMenu_kinded | apply Scene_kinded]. Qed.

(** ** The active state stays an instance of a registered class *)

Section Driver_anchor.
Context {cname : Type} (classes : cname -> class cname).
Hypothesis classes_keep : forall c, kinded_class (classes c).
Implicit Types (w : Game.world cname) (m : store cname).

Ltac driver_unfold :=
  unfold Game.update, Game.check_state, Game.flip_state, Game.construct,
    Game.on_draw, Game.on_key_press, Game.on_key_release,
    Game.invoke, Game.lift, Game.log, Game.quit, Game.truth, Game.subscript,
    Game.self_state, Game.self_states, Game.self_persist, Game.set_state,
    Game.set_states, Game.set_persist, Game.set_game,
    Game.self_attr, new_obj, bind, ret, raise, gets, modify.

Lemma hook_kinded c :
  (forall l, kinded (c_init (classes c) l))
  /\ (forall l bag, kinded (c_setup (classes c) l bag))
  /\ (forall l key mods, kinded (c_key_down (classes c) l key mods))
  /\ (forall l key mods, kinded (c_key_release (classes c) l key mods))
  /\ (forall l dt, kinded (c_update (classes c) l dt))
  /\ (forall l, kinded (c_draw (classes c) l)).
Proof. exact (classes_keep c). Qed.

(** Turns what is known of each step of a run into what it keeps. *)
Ltac keep_steps :=
  repeat match goal with
         | H : ?h ?m = ?r |- _ =>
             lazymatch r with
             | Ok _ ?s => idtac
             | Raise _ ?s => idtac
             end;
             let K := fresh "K" in
             assert (K : kept m (final r))
               by (rewrite <- H;
                   first [ apply kinded_getattr | apply kinded_setattr | apply kinded_emit
                         | apply kinded_class_of
                         | apply (proj1 (hook_kinded _))
                         | apply (proj1 (proj2 (hook_kinded _)))
                         | apply (proj1 (proj2 (proj2 (hook_kinded _))))
                         | apply (proj1 (proj2 (proj2 (proj2 (hook_kinded _)))))
                         | apply (proj1 (proj2 (proj2 (proj2 (proj2 (hook_kinded _))))))
                         | apply (proj2 (proj2 (proj2 (proj2 (proj2 (hook_kinded _)))))) ]);
             cbn [final] in K; clear H
         end.

Ltac push_inst :=
  repeat match goal with
         | K : kept ?m ?s, I : objs ?m !! ?l = Some (OInst ?c _) |- _ =>
             lazymatch goal with
             | _ : objs s !! l = Some (OInst c _) |- _ => fail
             | _ => let a := fresh "a" in let I' := fresh "I" in
                    destruct (kept_inst _ _ _ _ _ K I) as (a & I')
             end
         end.

Lemma deliver_anchored reg e w :
  anchored reg w -> anchored reg (final (Game.deliver classes e w)).
Proof.
  destruct w as [[sts st ps] m t].
  intros (Hs & l & c & a & k & Hl & Ho & Hk). cbn in Hs, Hl, Ho. subst sts st.
  destruct e; cbn [Game.deliver]; driver_unfold;
    cbn [Game.mem Game.game Game.calls Game.state Game.states Game.persist final
         objs screen entropy drawn set_objs];
    break_match.
  all: unfold anchored;
    cbn [Game.mem Game.game Game.calls Game.state Game.states Game.persist final];
    (split; [reflexivity|]).
  all: keep_steps.
  all: try match goal with
           | _ : kept (set_objs _ ?m1) _ |- _ =>
               assert (objs (set_objs (fun os => os ++ [OInst c0 ∅]) m1)
                         !! length (objs m1) = Some (OInst c0 ∅))
                 by (apply list_lookup_middle; reflexivity);
               pose proof (kept_alloc m1 (OInst c0 ∅))
           end.
  all: push_inst.
  all: eauto 10.
Qed.
End Driver_anchor.

(** ** The hooks, step by step *)

Section Hook_specs.
Context {cname : Type}.
Implicit Types (m : store cname) (l p t : nat).

(** A store that differs from [m] by the object at [q]. *)
Lemma lookup_write_eq m q (o o' : obj cname) :
  objs m !! q = Some o ->
  objs (set_objs (fun os => <[q := o']> os) m) !! q = Some o'.
Proof. intros H. cbn. apply list_lookup_insert_eq. eapply lookup_lt_Some; exact H. Qed.

Lemma lookup_write_ne m q q' (o' : obj cname) :
  q' <> q ->
  objs (set_objs (fun os => <[q := o']> os) m) !! q' = objs m !! q'.
Proof. intros H. cbn. apply list_lookup_insert_ne. congruence. Qed.

Lemma iadd_item_list m t xs i x n :
  objs m !! t = Some (OList xs) ->
  xs !! i = Some (VInt x) ->
  iadd_item (VRef t) i n m
  = Ok tt (set_objs (fun os => <[t := OList (<[i := VInt (x + n)]> xs)]> os) m).
Proof.
  intros Ht Hx. unfold iadd_item, bind, deref. rewrite Ht. cbn beta iota.
  rewrite Hx. reflexivity.
Qed.

Lemma setitem_str_dict m p kv k v :
  objs m !! p = Some (ODict kv) ->
  setitem_str (VRef p) k v m
  = Ok tt (set_objs (fun os => <[p := ODict (<[k := v]> kv)]> os) m).
Proof. intros Hp. unfold setitem_str, bind, deref. rewrite Hp. reflexivity. Qed.

(** SPACE on a screen whose position is a list of at least two integers:
    the body of [key_down] with the key tests resolved. *)
Lemma space_body_spec (next : string) m l c a p kv t xs x y :
  objs m !! l = Some (OInst c a) ->
  a !! "text_position" = Some (VRef t) ->
  a !! "persist" = Some (VRef p) ->
  objs m !! t = Some (OList xs) ->
  xs !! 0%nat = Some (VInt x) ->
  xs !! 1%nat = Some (VInt y) ->
  objs m !! p = Some (ODict kv) ->
  exists m',
    ((let* pos := getattr l "text_position" in iadd_item pos 0 10) >>
     (let* pos := getattr l "text_position" in iadd_item pos 1 10) >>
     (let* pos := getattr l "text_position" in
      let* bag := getattr l "persist" in
      setitem_str bag "text_position" pos) >>
     setattr l "done" (VBool true) >>
     setattr l "next_state" (VStr next)) m = Ok tt m'
    /\ objs m' !! l
       = Some (OInst c (<["next_state" := VStr next]> (<["done" := VBool true]> a)))
    /\ objs m' !! p = Some (ODict (<["text_position" := VRef t]> kv))
    /\ objs m' !! t
       = Some (OList (<[1%nat := VInt (y + 10)]> (<[0%nat := VInt (x + 10)]> xs)))
    /\ length (objs m') = length (objs m)
    /\ (forall q, q <> l -> q <> p -> q <> t -> objs m' !! q = objs m !! q)
    /\ screen m' = screen m /\ entropy m' = entropy m /\ drawn m' = drawn m.
Proof.
  intros Hl Hpos Hbag Ht Hx Hy Hp.
  assert (Hlt : l <> t) by (intros ->; rewrite Hl in Ht; discriminate).
  assert (Hlp : l <> p) by (intros ->; rewrite Hl in Hp; discriminate).
  assert (Hpt : p <> t) by (intros ->; rewrite Hp in Ht; discriminate).
  assert (G0 : getattr l "text_position" m = Ok (VRef t) m)
    by (apply getattr_attr; rewrite (attr_inst _ _ _ _ _ Hl); exact Hpos).
  set (xs1 := <[0%nat := VInt (x + 10)]> xs).
  set (m1 := set_objs (fun os => <[t := OList xs1]> os) m).
  assert (A0 : (let* pos := getattr l "text_position" in iadd_item pos 0 10) m
               = Ok tt m1)
    by (rewrite (bind_Ok _ _ _ _ _ G0); exact (iadd_item_list m t xs 0 x 10 Ht Hx)).
  rewrite (bind_Ok _ _ _ _ _ A0).
  assert (Hl1 : objs m1 !! l = Some (OInst c a))
    by (unfold m1; rewrite lookup_write_ne by exact Hlt; exact Hl).
  assert (Ht1 : objs m1 !! t = Some (OList xs1)) by (eapply lookup_write_eq; exact Ht).
  assert (Hp1 : objs m1 !! p = Some (ODict kv))
    by (unfold m1; rewrite lookup_write_ne by exact Hpt; exact Hp).
  assert (Hy1 : xs1 !! 1%nat = Some (VInt y))
    by (unfold xs1; rewrite list_lookup_insert_ne by discriminate; exact Hy).
  assert (G1 : getattr l "text_position" m1 = Ok (VRef t) m1)
    by (apply getattr_attr; rewrite (attr_inst _ _ _ _ _ Hl1); exact Hpos).
  set (xs2 := <[1%nat := VInt (y + 10)]> xs1).
  set (m2 := set_objs (fun os => <[t := OList xs2]> os) m1).
  assert (A1 : (let* pos := getattr l "text_position" in iadd_item pos 1 10) m1
               = Ok tt m2)
    by (rewrite (bind_Ok _ _ _ _ _ G1); exact (iadd_item_list m1 t xs1 1 y 10 Ht1 Hy1)).
  rewrite (bind_Ok _ _ _ _ _ A1).
  assert (Hl2 : objs m2 !! l = Some (OInst c a))
    by (unfold m2; rewrite lookup_write_ne by exact Hlt; exact Hl1).
  assert (Ht2 : objs m2 !! t = Some (OList xs2)) by (eapply lookup_write_eq; exact Ht1).
  assert (Hp2 : objs m2 !! p = Some (ODict kv))
    by (unfold m2; rewrite lookup_write_ne by exact Hpt; exact Hp1).
  assert (G2 : getattr l "text_position" m2 = Ok (VRef t) m2)
    by (apply getattr_attr; rewrite (attr_inst _ _ _ _ _ Hl2); exact Hpos).
  assert (G2' : getattr l "persist" m2 = Ok (VRef p) m2)
    by (apply getattr_attr; rewrite (attr_inst _ _ _ _ _ Hl2); exact Hbag).
  set (m3 := set_objs (fun os => <[p := ODict (<["text_position" := VRef t]> kv)]> os) m2).
  assert (A2 : (let* pos := getattr l "text_position" in
                let* bag := getattr l "persist" in
                setitem_str bag "text_position" pos) m2 = Ok tt m3)
    by (rewrite (bind_Ok _ _ _ _ _ G2), (bind_Ok _ _ _ _ _ G2');
        exact (setitem_str_dict m2 p kv _ _ Hp2)).
  rewrite (bind_Ok _ _ _ _ _ A2).
  assert (Hl3 : objs m3 !! l = Some (OInst c a))
    by (unfold m3; rewrite lookup_write_ne by exact Hlp; exact Hl2).
  destruct (setattr_step m3 l c a "done" (VBool true) Hl3) as (m4 & E4 & Hl4 & O4 & L4).
  destruct (setattr_step m4 l c _ "next_state" (VStr next) Hl4)
    as (m5 & E5 & Hl5 & O5 & L5).
  rewrite (bind_Ok _ _ _ _ _ E4).
  exists m5. split; [exact E5|]. split; [exact Hl5|].
  assert (W : forall q, q <> l -> objs m5 !! q = objs m3 !! q)
    by (intros q Hq; rewrite O5, O4 by exact Hq; reflexivity).
  split; [rewrite W by congruence; eapply lookup_write_eq; exact Hp2|].
  split; [rewrite W by congruence; unfold m3;
          rewrite lookup_write_ne by congruence; exact Ht2|].
  split; [rewrite L5, L4; cbn; rewrite !length_insert; reflexivity|].
  split.
  - intros q Hql Hqp Hqt. rewrite W by exact Hql. unfold m3, m2, m1.
    rewrite !lookup_write_ne by congruence. reflexivity.
  - unfold setattr, bind, deref in E4, E5. rewrite Hl3 in E4. rewrite Hl4 in E5.
    injection E4 as <-. injection E5 as <-. repeat split.
Qed.
End Hook_specs.

Section Hook_specs2.
Context {cname : Type}.
Implicit Types (m : store cname) (l p t : nat).

Lemma frame_list P m m' q xs :
  frame P m m' -> objs m !! q = Some (OList xs) -> objs m' !! q = Some (OList xs).
Proof. intros H Hq. exact (H _ _ Hq). Qed.

(** [State.__init__] on an instance: what it assigns and what it allocates. *)
Lemma State_init_fields l m c a :
  objs m !! l = Some (OInst c a) ->
  exists m',
    State.__init__ l m = Ok tt m'
    /\ objs m' !! l
       = Some (OInst c (<["quit" := VBool false]>
                          (<["done" := VBool false]>
                             (<["next_state" := VNone]>
                                (<["persist" := VRef (length (objs m))]> a)))))
    /\ objs m' !! length (objs m) = Some (ODict ∅)
    /\ length (objs m') = S (length (objs m))
    /\ (forall q, q <> l -> q <> length (objs m) -> objs m' !! q = objs m !! q)
    /\ screen m' = screen m /\ entropy m' = entropy m /\ drawn m' = drawn m.
Proof.
  intros Hl. unfold State.__init__.
  rewrite (bind_Ok _ _ _ _ _ (new_obj_eq m _)).
  set (m0 := set_objs _ m).
  assert (H0 : objs m0 !! l = Some (OInst c a))
    by (apply lookup_app_l_Some; exact Hl).
  assert (Hlen : (l < length (objs m))%nat) by (eapply lookup_lt_Some; exact Hl).
  destruct (setattr_step m0 l c a "persist" (VRef (length (objs m))) H0)
    as (m1 & E1 & H1 & O1 & L1).
  destruct (setattr_step m1 l c _ "next_state" VNone H1) as (m2 & E2 & H2 & O2 & L2).
  destruct (setattr_step m2 l c _ "done" (VBool false) H2) as (m3 & E3 & H3 & O3 & L3).
  destruct (setattr_step m3 l c _ "quit" (VBool false) H3) as (m4 & E4 & H4 & O4 & L4).
  exists m4.
  assert (W : forall q, q <> l -> objs m4 !! q = objs m0 !! q)
    by (intros q Hq; rewrite O4, O3, O2, O1 by exact Hq; reflexivity).
  split; [rewrite (bind_Ok _ _ _ _ _ E1), (bind_Ok _ _ _ _ _ E2),
            (bind_Ok _ _ _ _ _ E3); exact E4|].
  split; [exact H4|].
  split; [rewrite W by lia; apply list_lookup_middle; reflexivity|].
  split; [rewrite L4, L3, L2, L1; cbn; rewrite length_app; cbn; lia|].
  split.
  - intros q Hq Hq'. rewrite W by exact Hq. cbn.
    destruct (decide (q < length (objs m))%nat).
    + apply lookup_app_l. assumption.
    + rewrite !lookup_ge_None_2; [reflexivity | lia | rewrite length_app; cbn; lia].
  - unfold setattr, bind, deref in E1, E2, E3, E4.
    rewrite H0 in E1. rewrite H1 in E2. rewrite H2 in E3. rewrite H3 in E4.
    injection E1 as <-. injection E2 as <-. injection E3 as <-. injection E4 as <-.
    repeat split.
Qed.

(** [setup] of the two screens on an instance, given a dictionary. *)
Lemma screen_setup_fields (text : string) l m c a p kv :
  objs m !! l = Some (OInst c a) ->
  objs m !! p = Some (ODict kv) ->
  exists m',
    (setattr l "persist" (VRef p) >>
     setattr l "text" (VStr text) >>
     let* bag := getattr l "persist" in
     let* get := attr_get bag in
     let* dflt := new_obj (OList [VInt 0; VInt 300]) in
     let* pos := call_get get "text_position" (VRef dflt) in
     setattr l "text_position" pos) m = Ok tt m'
    /\ attr m' l "persist" = Some (VRef p)
    /\ attr m' l "text" = Some (VStr text)
    /\ attr m' l "text_position"
       = Some (match kv !! "text_position" with
               | Some v => v
               | None => VRef (length (objs m))
               end)
    /\ objs m' !! length (objs m) = Some (OList [VInt 0; VInt 300])
    /\ length (objs m') = S (length (objs m)).
Proof.
  intros Hl Hp.
  assert (Hne : p <> l) by (intros ->; rewrite Hl in Hp; discriminate).
  assert (Hlen : (l < length (objs m))%nat) by (eapply lookup_lt_Some; exact Hl).
  destruct (setattr_step m l c a "persist" (VRef p) Hl) as (m1 & E1 & H1 & O1 & L1).
  destruct (setattr_step m1 l c _ "text" (VStr text) H1) as (m2 & E2 & H2 & O2 & L2).
  rewrite (bind_Ok _ _ _ _ _ E1), (bind_Ok _ _ _ _ _ E2).
  assert (G : getattr l "persist" m2 = Ok (VRef p) m2).
  { apply getattr_attr. rewrite (attr_inst _ _ _ _ _ H2).
    rewrite lookup_insert_ne by discriminate. apply lookup_insert_eq. }
  rewrite (bind_Ok _ _ _ _ _ G).
  assert (Hp2 : objs m2 !! p = Some (ODict kv))
    by (rewrite O2, O1 by exact Hne; exact Hp).
  assert (D : attr_get (VRef p) m2 = Ok (DictGet p) m2)
    by (unfold attr_get, bind, deref; rewrite Hp2; reflexivity).
  rewrite (bind_Ok _ _ _ _ _ D), (bind_Ok _ _ _ _ _ (new_obj_eq m2 _)).
  set (m3 := set_objs _ m2).
  assert (Hp3 : objs m3 !! p = Some (ODict kv))
    by (apply lookup_app_l_Some; exact Hp2).
  assert (Hl3 : objs m3 !! l = Some (OInst c (<["text" := VStr text]> (<["persist" := VRef p]> a))))
    by (apply lookup_app_l_Some; exact H2).
  assert (L : length (objs m2) = length (objs m)) by congruence.
  rewrite L.
  set (pos := match kv !! "text_position" with
              | Some v => v
              | None => VRef (length (objs m))
              end).
  assert (Gt : call_get (DictGet p) "text_position" (VRef (length (objs m))) m3
               = Ok pos m3)
    by (unfold call_get, bind, deref; rewrite Hp3; reflexivity).
  rewrite (bind_Ok _ _ _ _ _ Gt).
  destruct (setattr_step m3 l c _ "text_position" pos Hl3) as (m4 & E4 & H4 & O4 & L4).
  exists m4. split; [exact E4|].
  rewrite !(attr_inst _ _ _ _ _ H4).
  split; [rewrite !lookup_insert_ne by discriminate; apply lookup_insert_eq|].
  split; [rewrite lookup_insert_ne by discriminate; apply lookup_insert_eq|].
  split; [apply lookup_insert_eq|].
  split.
  - rewrite O4 by lia. apply list_lookup_middle. symmetry. exact L.
  - rewrite L4. cbn. rewrite length_app, L. cbn. lia.
Qed.
End Hook_specs2.

Section Driver_steps.
Context {cname : Type} (classes : cname -> class cname).
Implicit Types (w : Game.world cname) (m : store cname).

Ltac driver_unfold :=
  unfold Game.update, Game.check_state, Game.flip_state, Game.construct,
    Game.on_draw, Game.on_key_press, Game.on_key_release,
    Game.invoke, Game.lift, Game.log, Game.quit, Game.truth, Game.subscript,
    Game.self_state, Game.self_states, Game.self_persist, Game.set_state,
    Game.set_states, Game.set_persist, Game.set_game,
    Game.self_attr, bind, ret, raise, gets, modify.

Ltac driver_cbn :=
  cbn [Game.mem Game.game Game.calls Game.state Game.states Game.persist].

(** A key press whose hook returns. *)
Lemma on_key_press_returns w l c key mods m' :
  Game.state (Game.game w) = Some l ->
  class_of l (Game.mem w) = Ok c (Game.mem w) ->
  c_key_down (classes c) l key mods (Game.mem w) = Ok tt m' ->
  Game.on_key_press classes key mods w
  = Ok tt (Game.World (Game.game w) m' (Game.calls w ++ [Game.KeyDown l key mods])).
Proof.
  destruct w as [g m t]. cbn. intros Hl Hc Hk.
  driver_unfold. driver_cbn. rewrite Hl. driver_cbn. rewrite Hc. driver_cbn.
  rewrite Hk. reflexivity.
Qed.

(** The frame update along a transition, hook by hook. *)
Lemma update_flips w dt l reg d k c bag m1 m3 c3 m4 q c4 m5 :
  Game.state (Game.game w) = Some l ->
  Game.states (Game.game w) = Some reg ->
  getattr l "done" (Game.mem w) = Ok d (Game.mem w) ->
  truthy (Game.mem w) d = true ->
  getattr l "persist" (Game.mem w) = Ok bag (Game.mem w) ->
  setattr l "done" (VBool false) (Game.mem w) = Ok tt m1 ->
  getattr l "next_state" m1 = Ok (VStr k) m1 ->
  reg !! k = Some c ->
  c_init (classes c) (length (objs m1))
    (set_objs (fun os => os ++ [OInst c ∅]) m1) = Ok tt m3 ->
  class_of (length (objs m1)) m3 = Ok c3 m3 ->
  c_setup (classes c3) (length (objs m1)) bag m3 = Ok tt m4 ->
  getattr (length (objs m1)) "quit" m4 = Ok q m4 ->
  truthy m4 q = false ->
  class_of (length (objs m1)) m4 = Ok c4 m4 ->
  c_update (classes c4) (length (objs m1)) dt m4 = Ok tt m5 ->
  Game.update classes dt w
  = Ok tt (Game.World
             (Game.Build (Some reg) (Some (length (objs m1)))
                (Game.persist (Game.game w)))
             m5
             (Game.calls w ++ [Game.New c (length (objs m1));
                               Game.Setup (length (objs m1)) bag;
                               Game.Update (length (objs m1)) dt])).
Proof.
  destruct w as [[sts st ps] m t]. cbn.
  intros -> -> G1 Ht G2 E1 G4 Hc E3 C3 E4 Q4 Hq C4 E5.
  driver_unfold. driver_cbn.
  rewrite G1. driver_cbn. rewrite Ht. driver_cbn. rewrite G2. driver_cbn.
  rewrite E1. driver_cbn. rewrite G4. driver_cbn. rewrite Hc. driver_cbn.
  rewrite (new_obj_eq m1 (OInst c ∅)). driver_cbn.
  rewrite E3. driver_cbn. rewrite C3. driver_cbn.
  rewrite E4. driver_cbn. rewrite Q4. driver_cbn. rewrite Hq. driver_cbn.
  rewrite C4. driver_cbn. rewrite E5.
  rewrite <- !app_assoc. reflexivity.
Qed.
End Driver_steps.

(** ** Changing screens *)

Lemma game_states_lookup k c :
  game_states !! k = Some c ->
  (k = "MAIN" /\ c = MainMenu_class) \/ (k = "SCENE" /\ c = Scene_class).
Proof.
  unfold game_states. intros H.
  destruct (decide (k = "MAIN")) as [->|Hm].
  - rewrite lookup_insert_eq in H. injection H as <-. auto.
  - rewrite lookup_insert_ne in H by congruence.
    destruct (decide (k = "SCENE")) as [->|Hs].
    + rewrite lookup_insert_eq in H. injection H as <-. auto.
    + rewrite lookup_insert_ne in H by congruence. discriminate.
Qed.

Implicit Types (m : store cname) (l p t : nat).

Lemma screen_init_eq c l : c_init (classes c) l = State.__init__ l.
Proof. destruct c; reflexivity. Qed.

Lemma screen_space_spec c mods m l c0 a p kv t xs x y :
  c = MainMenu_class \/ c = Scene_class ->
  objs m !! l = Some (OInst c0 a) ->
  a !! "text_position" = Some (VRef t) ->
  a !! "persist" = Some (VRef p) ->
  objs m !! t = Some (OList xs) ->
  xs !! 0%nat = Some (VInt x) ->
  xs !! 1%nat = Some (VInt y) ->
  objs m !! p = Some (ODict kv) ->
  exists m',
    c_key_down (classes c) l key.SPACE mods m = Ok tt m'
    /\ objs m' !! l
       = Some (OInst c0 (<["next_state" := VStr (next_key c)]>
                           (<["done" := VBool true]> a)))
    /\ objs m' !! p = Some (ODict (<["text_position" := VRef t]> kv))
    /\ objs m' !! t
       = Some (OList (<[1%nat := VInt (y + 10)]> (<[0%nat := VInt (x + 10)]> xs)))
    /\ length (objs m') = length (objs m)
    /\ (forall q, q <> l -> q <> p -> q <> t -> objs m' !! q = objs m !! q)
    /\ screen m' = screen m /\ entropy m' = entropy m /\ drawn m' = drawn m.
Proof.
  intros [-> | ->] Hl Hpos Hbag Ht Hx Hy Hp.
  - destruct (space_body_spec "SCENE" m l c0 a p kv t xs x y
                Hl Hpos Hbag Ht Hx Hy Hp) as (m' & E & R).
    exists m'. split; [exact E | exact R].
  - destruct (space_body_spec "MAIN" m l c0 a p kv t xs x y
                Hl Hpos Hbag Ht Hx Hy Hp) as (m' & E & R).
    exists m'. split; [exact E | exact R].
Qed.

Lemma screen_setup_spec c l m c0 a p kv :
  c = MainMenu_class \/ c = Scene_class ->
  objs m !! l = Some (OInst c0 a) ->
  objs m !! p = Some (ODict kv) ->
  exists m',
    c_setup (classes c) l (VRef p) m = Ok tt m'
    /\ attr m' l "persist" = Some (VRef p)
    /\ attr m' l "text_position"
       = Some (match kv !! "text_position" with
               | Some v => v
               | None => VRef (length (objs m))
               end)
    /\ objs m' !! length (objs m) = Some (OList [VInt 0; VInt 300])
    /\ length (objs m') = S (length (objs m))
    /\ frame (assigns ["persist"; "text"; "text_position"]) m m'.
Proof.
  intros Hc Hl Hp.
  pose proof (screens_setup_framed c l (VRef p) m) as F.
  destruct Hc as [-> | ->];
    (match goal with |- context [c_setup (classes ?k)] =>
       change (c_setup (classes k) l (VRef p) m)
         with (MainMenu.setup l (VRef p) m) in * ||
       change (c_setup (classes k) l (VRef p) m)
         with (Scene.setup l (VRef p) m) in * end);
    unfold MainMenu.setup, Scene.setup in *;
    (match goal with |- context [VStr ?txt] =>
       destruct (screen_setup_fields txt l m c0 a p kv Hl Hp)
         as (m' & E & R1 & _ & R2 & R3 & R4) end);
    rewrite E in F; exists m'; repeat split; assumption.
Qed.

Lemma screen_update_spec c l dt m c0 a :
  c = MainMenu_class \/ c = Scene_class ->
  objs m !! l = Some (OInst c0 a) ->
  exists m' x,
    c_update (classes c) l dt m = Ok tt m'
    /\ 150 <= x <= 200
    /\ objs m' !! l = Some (OInst c0 (<["col" := shade c x]> a))
    /\ (forall q, q <> l -> objs m' !! q = objs m !! q)
    /\ screen m' = screen m /\ entropy m' = entropy m
    /\ drawn m' = S (drawn m).
Proof.
  intros Hc Hl.
  set (x := 150 + entropy m (drawn m) mod (200 - 150 + 1)).
  exists (set_objs (fun os => <[l := OInst c0 (<["col" := shade c x]> a)]> os)
            (Store (objs m) (screen m) (entropy m) (S (drawn m)))), x.
  split; [|split; [|split; [|split; [|repeat split]]]].
  - destruct Hc as [-> | ->]; cbn; unfold MainMenu.update, Scene.update, bind, randint;
      fold x; apply setattr_inst; exact Hl.
  - unfold x. change (200 - 150 + 1) with 51.
    pose proof (Z.mod_pos_bound (entropy m (drawn m)) 51). lia.
  - cbn. apply list_lookup_insert_eq. eapply lookup_lt_Some; exact Hl.
  - intros q Hq. cbn. apply list_lookup_insert_ne. congruence.
Qed.

Lemma next_key_registered c :
  c = MainMenu_class \/ c = Scene_class ->
  game_states !! next_key c = Some (other_screen c)
  /\ (other_screen c = MainMenu_class \/ other_screen c = Scene_class).
Proof. intros [-> | ->]; split; auto; reflexivity. Qed.

Lemma standing_step w c p t x y mods dt :
  standing w c p t x y ->
  exists w',
    Game.run classes [Game.EKeyPress key.SPACE mods; Game.EUpdate dt] w = Ok tt w'
    /\ standing w' (other_screen c) p t (x + 10) (y + 10)
    /\ text_position_of w' = Some [VInt (x + 10); VInt (y + 10)].
Proof.
  destruct w as [[sts st ps] m tr].
  intros (Hs & Hps & Hc & l & a & kv & Hl & Ho & Hd & Hq & Hb & Hpos & Hp & Hkv & Ht).
  cbn in Hs, Hps, Hl, Ho, Hp, Ht. subst sts st ps.
  destruct (next_key_registered c Hc) as [Hreg Hc'].
  set (c' := other_screen c) in *.
  pose proof (lookup_lt_Some _ _ _ Ho) as Bl.
  pose proof (lookup_lt_Some _ _ _ Hp) as Bp.
  pose proof (lookup_lt_Some _ _ _ Ht) as Bt.
  (* the key press *)
  destruct (screen_space_spec c mods m l c a p kv t [VInt x; VInt y] x y
              Hc Ho Hpos Hb Ht eq_refl eq_refl Hp)
    as (m1 & E1 & Hl1 & Hp1 & Ht1 & L1 & O1 & _).
  cbn [insert list_insert] in Ht1.
  set (kv1 := <["text_position" := VRef t]> kv) in *.
  set (a1 := <["next_state" := VStr (next_key c)]> (<["done" := VBool true]> a)) in *.
  set (w0 := Game.World (Game.Build (Some game_states) (Some l) (Some p)) m tr).
  assert (K : Game.on_key_press classes key.SPACE mods w0
              = Ok tt (Game.World (Game.game w0) m1
                         (tr ++ [Game.KeyDown l key.SPACE mods]))).
  { apply (on_key_press_returns classes w0 l c); [reflexivity | | exact E1].
    exact (class_of_inst _ _ _ _ Ho). }
  set (w1 := Game.World (Game.game w0) m1 (tr ++ [Game.KeyDown l key.SPACE mods])) in *.
  (* the transition *)
  destruct (setattr_step m1 l c a1 "done" (VBool false) Hl1)
    as (m2 & E2 & Hl2 & O2 & L2).
  assert (Lm : length (objs m2) = length (objs m)) by congruence.
  set (l' := length (objs m2)) in *.
  set (m2a := set_objs (fun os => os ++ [OInst c' ∅]) m2).
  assert (H2a : objs m2a !! l' = Some (OInst c' ∅))
    by (apply list_lookup_middle; reflexivity).
  assert (L2a : length (objs m2a) = S l')
    by (unfold m2a; cbn; rewrite length_app; cbn; unfold l'; lia).
  destruct (State_init_fields l' m2a c' ∅ H2a)
    as (m3 & E3 & Hl3 & _ & L3 & O3 & _).
  assert (Old3 : forall q o, (q < length (objs m))%nat -> q <> l ->
                             objs m1 !! q = Some o -> objs m3 !! q = Some o).
  { intros q o Bq Hql Hqo. rewrite O3 by lia.
    apply lookup_app_l_Some. rewrite O2 by exact Hql. exact Hqo. }
  assert (Hp3 : objs m3 !! p = Some (ODict kv1)).
  { apply Old3; [exact Bp | | exact Hp1]. intros ->. rewrite Ho in Hp. discriminate. }
  assert (Ht3 : objs m3 !! t = Some (OList [VInt (x + 10); VInt (y + 10)])).
  { apply Old3; [exact Bt | | exact Ht1]. intros ->. rewrite Ho in Ht. discriminate. }
  destruct (screen_setup_spec c' l' m3 c' _ p kv1 Hc' Hl3 Hp3)
    as (m4 & E4 & B4 & T4 & _ & _ & F4).
  unfold kv1 in T4 at 1. rewrite lookup_insert_eq in T4.
  destruct (frame_inst _ _ _ _ _ _ F4 Hl3) as (a4 & Hl4).
  assert (D4 : attr m4 l' "done" = Some (VBool false)).
  { rewrite (frame_attr _ _ _ _ "done" F4); [| rewrite Hl3; eauto | cbn; intuition discriminate].
    rewrite (attr_inst _ _ _ _ _ Hl3).
    rewrite lookup_insert_ne by discriminate. apply lookup_insert_eq. }
  assert (Q4 : attr m4 l' "quit" = Some (VBool false)).
  { rewrite (frame_attr _ _ _ _ "quit" F4); [| rewrite Hl3; eauto | cbn; intuition discriminate].
    rewrite (attr_inst _ _ _ _ _ Hl3). apply lookup_insert_eq. }
  destruct (screen_update_spec c' l' dt m4 c' a4 Hc' Hl4)
    as (m5 & shade_x & E5 & _ & Hl5 & O5 & _).
  assert (U : Game.update classes dt w1
              = Ok tt (Game.World
                         (Game.Build (Some game_states) (Some l') (Some p)) m5
                         (Game.calls w1 ++ [Game.New c' l'; Game.Setup l' (VRef p);
                                            Game.Update l' dt]))).
  { apply (update_flips classes w1 dt l game_states (VBool true) (next_key c) c'
             (VRef p) m2 m3 c' m4 (VBool false) c' m5); try reflexivity.
    - apply getattr_attr. rewrite (attr_inst _ _ _ _ _ Hl1). unfold a1.
      rewrite lookup_insert_ne by discriminate. apply lookup_insert_eq.
    - apply getattr_attr. rewrite (attr_inst _ _ _ _ _ Hl1). unfold a1.
      rewrite !lookup_insert_ne by discriminate. exact Hb.
    - exact E2.
    - apply getattr_attr. rewrite (attr_inst _ _ _ _ _ Hl2). unfold a1.
      rewrite lookup_insert_ne by discriminate. apply lookup_insert_eq.
    - exact Hreg.
    - rewrite screen_init_eq. exact E3.
    - exact (class_of_inst _ _ _ _ Hl3).
    - exact E4.
    - apply getattr_attr. exact Q4.
    - exact (class_of_inst _ _ _ _ Hl4).
    - exact E5. }
  eexists. split.
  { cbn [Game.run Game.deliver]. fold w0.
    rewrite (bind_Ok _ _ _ _ _ K), (bind_Ok _ _ _ _ _ U). reflexivity. }
  assert (Hp5 : objs m5 !! p = Some (ODict kv1))
    by (rewrite O5 by (unfold l'; lia); exact (frame_dict _ _ _ _ _ F4 Hp3)).
  assert (Ht5 : objs m5 !! t = Some (OList [VInt (x + 10); VInt (y + 10)]))
    by (rewrite O5 by (unfold l'; lia); exact (frame_list _ _ _ _ _ F4 Ht3)).
  rewrite (attr_inst _ _ _ _ "persist" Hl4) in B4.
  rewrite (attr_inst _ _ _ _ "text_position" Hl4) in T4.
  rewrite (attr_inst _ _ _ _ "done" Hl4) in D4.
  rewrite (attr_inst _ _ _ _ "quit" Hl4) in Q4.
  split.
  - unfold standing. cbn. repeat split; try assumption.
    exists l', (<["col" := shade c' shade_x]> a4), kv1.
    rewrite !lookup_insert_ne by discriminate.
    repeat split; try assumption.
    right. apply lookup_insert_eq.
  - unfold text_position_of, active_persist, entry, list_at, attr. cbn.
    rewrite Hl5. rewrite lookup_insert_ne by discriminate. rewrite B4.
    rewrite Hp5. unfold kv1. rewrite lookup_insert_eq. rewrite Ht5. reflexivity.
Qed.

(** ** Runs of the program *)

Section Run_facts.
Context {cname : Type} (classes : cname -> class cname).
Implicit Types (w : Game.world cname).

Lemma run_app es1 es2 w w1 :
  Game.run classes es1 w = Ok tt w1 ->
  Game.run classes (es1 ++ es2) w = Game.run classes es2 w1.
Proof.
  revert w. induction es1 as [|e es1 IH]; intros w; cbn.
  - unfold ret. intros [= ->]. reflexivity.
  - unfold bind. destruct (Game.deliver classes e w) as [[] w'|x w'];
      [apply IH | discriminate].
Qed.

Hypothesis classes_keep : forall c, kinded_class (classes c).

Lemma run_anchored reg es w :
  anchored reg w -> anchored reg (final (Game.run classes es w)).
Proof.
  revert w. induction es as [|e es IH]; intros w Hw; cbn; [exact Hw|].
  pose proof (deliver_anchored classes classes_keep reg e w Hw) as H.
  unfold bind. destruct (Game.deliver classes e w) as [[] w'|x w']; cbn in *.
  - apply IH, H.
  - exact H.
Qed.
End Run_facts.

(** The world [main] builds before the first callback. *)
Lemma main_starts rnd :
  exists w0,
    Game.__init__ classes WIDTH HEIGHT game_states "MAIN" (Game.boot (fresh_store rnd))
    = Ok tt w0
    /\ standing w0 MainMenu_class 2 3 0 300
    /\ anchored game_states w0
    /\ text_position_of w0 = None.
Proof.
  eexists. split; [vm_compute; reflexivity|]. split; [|split].
  - unfold standing. cbn. repeat split; auto.
    exists 0%nat. do 2 eexists. repeat split; try reflexivity. left. reflexivity.
  - split; [reflexivity|]. exists 0%nat, MainMenu_class. eexists. exists "MAIN".
    repeat split.
  - reflexivity.
Qed.

Lemma play_eq rnd es w0 :
  Game.__init__ classes WIDTH HEIGHT game_states "MAIN" (Game.boot (fresh_store rnd))
  = Ok tt w0 ->
  play rnd es = Game.run classes es w0.
Proof. intros E. unfold play, main. rewrite (bind_Ok _ _ _ _ _ E). reflexivity. Qed.

(** X2.  Whatever the random draws and whatever callbacks the host delivers,
    in whatever order and however the run ends, the active state is an
    instance of [MainMenu] or of [Scene]. *)
Theorem active_state_is_always_a_screen rnd es :
  let w := final (play rnd es) in
  active_class w = Some MainMenu_class \/ active_class w = Some Scene_class.
Proof.
  cbv zeta. destruct (main_starts rnd) as (w0 & E & _ & A & _).
  rewrite (play_eq rnd es w0 E).
  destruct (run_anchored classes classes_kinded game_states es w0 A)
    as (_ & l & c & a & k & Hl & Ho & Hk).
  unfold active_class. rewrite Hl, Ho.
  destruct (game_states_lookup k c Hk) as [[_ ->] | [_ ->]]; auto.
Qed.

Lemma space_presses_snoc presses mt :
  space_presses (presses ++ [mt])
  = space_presses presses
    ++ [Game.EKeyPress key.SPACE (fst mt); Game.EUpdate (snd mt)].
Proof. unfold space_presses. rewrite flat_map_app. reflexivity. Qed.

Lemma standing_after_presses w0 presses :
  standing w0 MainMenu_class 2 3 0 300 ->
  text_position_of w0 = None ->
  let n := length presses in
  exists w,
    Game.run classes (space_presses presses) w0 = Ok tt w
    /\ standing w (screen_after n) 2 3 (10 * Z.of_nat n) (300 + 10 * Z.of_nat n)
    /\ text_position_of w
       = match n with
         | O => None
         | S _ => Some [VInt (10 * Z.of_nat n); VInt (300 + 10 * Z.of_nat n)]
         end.
Proof.
  intros H0 T0. induction presses as [|mt presses IH] using rev_ind; cbv zeta.
  - exists w0. split; [reflexivity|]. split; [exact H0 | exact T0].
  - destruct IH as (w & E & Hw & _).
    destruct (standing_step w _ _ _ _ _ (fst mt) (snd mt) Hw) as (w' & E' & Hw' & T').
    exists w'. rewrite space_presses_snoc, (run_app _ _ _ _ _ E).
    rewrite length_app. cbn [length]. rewrite Nat.add_1_r.
    replace (10 * Z.of_nat (S (length presses)))
      with (10 * Z.of_nat (length presses) + 10) by lia.
    replace (300 + (10 * Z.of_nat (length presses) + 10))
      with (300 + 10 * Z.of_nat (length presses) + 10) by lia.
    split; [exact E'|]. split; [exact Hw' | exact T'].
Qed.

(** What the bag of a screen at rest records as position: nothing, or the
    state's own list. *)
Lemma standing_bag_entry w c p t x y :
  standing w c p t x y ->
  (active_persist w "text_position" = None /\ text_position_of w = None)
  \/ (active_persist w "text_position" = Some (VRef t)
      /\ text_position_of w = Some [VInt x; VInt y]).
Proof.
  intros (Hs & Hps & Hc & l & a & kv & Hl & Ho & Hd & Hq & Hb & Hpos & Hp & Hkv & Ht).
  unfold text_position_of, active_persist, entry, list_at, attr.
  rewrite Hl, Ho, Hb, Hp.
  destruct Hkv as [-> | ->]; [left | right; rewrite Ht]; split; reflexivity.
Qed.

(** X3.  SPACE followed by a frame update, [n] times over: the run returns;
    the screens alternate, starting from the main menu; the text has moved
    by 10 on both axes each time.  It is one list and one dictionary all
    along: whatever [n], the active state's [persist] is the object at
    location 2, which is the dictionary the [Game] created, and its
    [text_position] is the object at location 3, the default list the first
    [setup] built, which holds the position; from the first SPACE on, the
    dictionary's ["text_position"] is a reference to that same object. *)
Theorem screens_alternate_and_position_accumulates rnd presses :
  let n := length presses in
  let pos := [VInt (10 * Z.of_nat n); VInt (300 + 10 * Z.of_nat n)] in
  let r := play rnd (space_presses presses) in
  let w := final r in
  raised r = None
  /\ active_class w = Some (screen_after n)
  /\ active_position w = Some pos
  /\ text_position_of w = match n with O => None | S _ => Some pos end
  /\ Game.persist (Game.game w) = Some 2%nat
  /\ list_at (Game.mem w) (VRef 3) = Some pos
  /\ active_persist w "text_position"
     = match n with O => None | S _ => Some (VRef 3) end
  /\ exists l, Game.state (Game.game w) = Some l
               /\ attr (Game.mem w) l "persist" = Some (VRef 2)
               /\ attr (Game.mem w) l "text_position" = Some (VRef 3).
Proof.
  cbv zeta. destruct (main_starts rnd) as (w0 & E & S0 & _ & T0).
  rewrite (play_eq rnd _ w0 E).
  destruct (standing_after_presses w0 presses S0 T0) as (w & Er & Hw & Tw).
  rewrite Er. cbn [raised final].
  pose proof (standing_bag_entry _ _ _ _ _ _ Hw) as Hbag.
  destruct Hw as (Hs & Hps & Hc & l & a & kv & Hl & Ho & Hd & Hq & Hb & Hpos & Hp & Hkv & Ht).
  assert (Hentry : active_persist w "text_position"
                   = match length presses with O => None | S _ => Some (VRef 3) end).
  { destruct Hbag as [[A T] | [A T]]; rewrite T in Tw;
      destruct (length presses); try discriminate; exact A. }
  unfold active_class, active_position. unfold list_at at 1. unfold attr at 1.
  rewrite Hl, Ho, Hpos, Ht.
  split; [reflexivity|]. split; [reflexivity|]. split; [reflexivity|].
  split; [exact Tw|]. split; [exact Hps|].
  split; [unfold list_at; rewrite Ht; reflexivity|].
  split; [exact Hentry|].
  exists l. split; [reflexivity|].
  unfold attr. rewrite Ho. split; assumption.
Qed.

(** ** The hooks of the screens *)

(** X4.  [State.__init__] on an instance returns; the instance then has a
    dictionary of its own as [persist], newly allocated and empty,
    [next_state] is [None], [done] and [quit] are [False]; no other object
    has changed. *)
Theorem State_init_gives_own_fields {cn : Type} (l : nat) (m : store cn) c a :
  objs m !! l = Some (OInst c a) ->
  exists (m' : store cn) d,
    State.__init__ l m = Ok tt m'
    /\ objs m !! d = None
    /\ objs m' !! d = Some (ODict ∅)
    /\ attr m' l "persist" = Some (VRef d)
    /\ attr m' l "next_state" = Some VNone
    /\ attr m' l "done" = Some (VBool false)
    /\ attr m' l "quit" = Some (VBool false)
    /\ (forall q, q <> l -> is_Some (objs m !! q) -> objs m' !! q = objs m !! q).
Proof.
  intros Hl.
  destruct (State_init_fields l m c a Hl) as (m' & E & Hl' & Hd & _ & O & _).
  exists m', (length (objs m)). split; [exact E|].
  split; [apply lookup_ge_None; lia|]. split; [exact Hd|].
  rewrite !(attr_inst _ _ _ _ _ Hl').
  split; [rewrite !lookup_insert_ne by discriminate; apply lookup_insert_eq|].
  split; [rewrite !lookup_insert_ne by discriminate; apply lookup_insert_eq|].
  split; [rewrite !lookup_insert_ne by discriminate; apply lookup_insert_eq|].
  split; [apply lookup_insert_eq|].
  intros q Hq Hs. apply O; [exact Hq|]. apply lookup_lt_is_Some in Hs. lia.
Qed.

(** X5.  [setup] of a screen, given a dictionary, returns and stores it as
    [persist] without changing it.  If the dictionary records a
    [text_position], the state takes that very value (no copy); otherwise it
    takes a new list [[0, 300]], which is not recorded in the dictionary.
    [done], [quit] and [next_state] are as they were. *)
Theorem setup_takes_position_from_bag c l m c0 a p kv :
  c = MainMenu_class \/ c = Scene_class ->
  objs m !! l = Some (OInst c0 a) ->
  objs m !! p = Some (ODict kv) ->
  exists m',
    c_setup (classes c) l (VRef p) m = Ok tt m'
    /\ attr m' l "persist" = Some (VRef p)
    /\ objs m' !! p = Some (ODict kv)
    /\ match kv !! "text_position" with
       | Some v => attr m' l "text_position" = Some v
       | None => exists t, attr m' l "text_position" = Some (VRef t)
                           /\ objs m !! t = None
                           /\ objs m' !! t = Some (OList [VInt 0; VInt 300])
       end
    /\ (forall n, In n ["done"; "quit"; "next_state"] -> attr m' l n = attr m l n).
Proof.
  intros Hc Hl Hp.
  destruct (screen_setup_spec c l m c0 a p kv Hc Hl Hp)
    as (m' & E & B & T & D & _ & F).
  exists m'. split; [exact E|]. split; [exact B|].
  split; [exact (frame_dict _ _ _ _ _ F Hp)|]. split.
  - destruct (kv !! "text_position"); [exact T|].
    exists (length (objs m)). split; [exact T|]. split; [|exact D].
    apply lookup_ge_None. lia.
  - intros n Hn. apply (frame_attr _ _ _ _ _ F); [rewrite Hl; eauto|].
    cbn in *. intuition (subst; discriminate).
Qed.

(** X6.  SPACE on a screen whose [text_position] is a list starting with two
    integers returns: both have grown by 10, in place; the bag's
    ["text_position"] refers to that same list; [done] is [True] and
    [next_state] is the other screen's key; the other attributes of the
    state and the other objects are as they were. *)
Theorem space_moves_position_and_asks_transition c mods m l p kv t xs x y :
  c = MainMenu_class \/ c = Scene_class ->
  attr m l "text_position" = Some (VRef t) ->
  attr m l "persist" = Some (VRef p) ->
  objs m !! t = Some (OList xs) ->
  xs !! 0%nat = Some (VInt x) ->
  xs !! 1%nat = Some (VInt y) ->
  objs m !! p = Some (ODict kv) ->
  exists m',
    c_key_down (classes c) l key.SPACE mods m = Ok tt m'
    /\ list_at m' (VRef t)
       = Some (<[1%nat := VInt (y + 10)]> (<[0%nat := VInt (x + 10)]> xs))
    /\ objs m' !! p = Some (ODict (<["text_position" := VRef t]> kv))
    /\ attr m' l "done" = Some (VBool true)
    /\ attr m' l "next_state" = Some (VStr (next_key c))
    /\ (forall n, n <> "done" -> n <> "next_state" -> attr m' l n = attr m l n)
    /\ (forall q, q <> l -> q <> p -> q <> t -> objs m' !! q = objs m !! q).
Proof.
  intros Hc Hpos Hb Ht Hx Hy Hp.
  assert (exists c0 a, objs m !! l = Some (OInst c0 a)) as (c0 & a & Hl).
  { unfold attr in Hb. destruct (objs m !! l) as [[| |c0 a]|]; try discriminate. eauto. }
  rewrite (attr_inst _ _ _ _ "text_position" Hl) in Hpos.
  rewrite (attr_inst _ _ _ _ "persist" Hl) in Hb.
  destruct (screen_space_spec c mods m l c0 a p kv t xs x y Hc Hl Hpos Hb Ht Hx Hy Hp)
    as (m' & E & Hl' & Hp' & Ht' & _ & O & _).
  exists m'. split; [exact E|].
  split; [unfold list_at; rewrite Ht'; reflexivity|]. split; [exact Hp'|].
  rewrite (attr_inst _ _ _ _ "done" Hl'), (attr_inst _ _ _ _ "next_state" Hl').
  split; [rewrite lookup_insert_ne by discriminate; apply lookup_insert_eq|].
  split; [apply lookup_insert_eq|]. split; [|exact O].
  intros n Hd Hn. rewrite (attr_inst _ _ _ _ _ Hl'), (attr_inst _ _ _ _ _ Hl).
  rewrite !lookup_insert_ne by congruence. reflexivity.
Qed.

(** X7.  [update] of a screen on an instance returns: [col] is the screen's
    shade for some [x] with [150 <= x <= 200], one random draw has been
    consumed, nothing has been drawn, and nothing else has changed. *)
Theorem update_picks_shade c l dt m c0 a :
  c = MainMenu_class \/ c = Scene_class ->
  objs m !! l = Some (OInst c0 a) ->
  exists m' x,
    c_update (classes c) l dt m = Ok tt m'
    /\ 150 <= x <= 200
    /\ attr m' l "col" = Some (shade c x)
    /\ (forall n, n <> "col" -> attr m' l n = attr m l n)
    /\ (forall q, q <> l -> objs m' !! q = objs m !! q)
    /\ screen m' = screen m
    /\ drawn m' = S (drawn m).
Proof.
  intros Hc Hl.
  destruct (screen_update_spec c l dt m c0 a Hc Hl)
    as (m' & x & E & Hx & Hl' & O & Hs & _ & Hd).
  exists m', x. split; [exact E|]. split; [exact Hx|].
  rewrite (attr_inst _ _ _ _ _ Hl').
  split; [apply lookup_insert_eq|]. split.
  - intros n Hn. rewrite (attr_inst _ _ _ _ _ Hl'), (attr_inst _ _ _ _ _ Hl).
    apply lookup_insert_ne. congruence.
  - repeat split; assumption.
Qed.

(** X8.  [draw] of a screen that has a [col], a [text] and a position list
    with two items returns; it sets the background to [col] and then draws
    the text at the position, in black, size 14, anchored at the top; the
    heap and the random source are untouched. *)
Theorem draw_emits_background_and_text c l m t xs col text x y :
  c = MainMenu_class \/ c = Scene_class ->
  attr m l "col" = Some col ->
  attr m l "text" = Some text ->
  attr m l "text_position" = Some (VRef t) ->
  objs m !! t = Some (OList xs) ->
  xs !! 0%nat = Some x ->
  xs !! 1%nat = Some y ->
  c_draw (classes c) l m
  = Ok tt (Store (objs m)
             (screen m ++ [SetBackgroundColor col; DrawText text x y BLACK 14 "top"])
             (entropy m) (drawn m)).
Proof.
  intros Hc Hcol Htext Hpos Ht Hx Hy.
  set (m1 := Store (objs m) (screen m ++ [SetBackgroundColor col]) (entropy m) (drawn m)).
  assert (R : forall n v, attr m l n = Some v -> getattr l n m1 = Ok v m1)
    by (intros n v H; apply getattr_attr; exact H).
  assert (I : forall i v, xs !! i = Some v -> getitem (VRef t) i m1 = Ok v m1)
    by (intros i v H; unfold getitem, bind, deref; cbn; rewrite Ht; cbn; rewrite H;
        reflexivity).
  assert (E : c_draw (classes c) l m
              = ((let* col := getattr l "col" in emit (SetBackgroundColor col)) >>
                 let* text := getattr l "text" in
                 let* pos := getattr l "text_position" in
                 let* x := getitem pos 0 in
                 let* pos := getattr l "text_position" in
                 let* y := getitem pos 1 in
                 emit (DrawText text x y BLACK 14 "top")) m)
    by (destruct Hc as [-> | ->]; reflexivity).
  rewrite E.
  assert (A : (let* col := getattr l "col" in emit (SetBackgroundColor col)) m
              = Ok tt m1)
    by (rewrite (bind_Ok _ _ _ _ _ (getattr_attr _ _ _ _ Hcol)); reflexivity).
  rewrite (bind_Ok _ _ _ _ _ A).
  rewrite (bind_Ok _ _ _ _ _ (R _ _ Htext)), (bind_Ok _ _ _ _ _ (R _ _ Hpos)).
  rewrite (bind_Ok _ _ _ _ _ (I _ _ Hx)), (bind_Ok _ _ _ _ _ (R _ _ Hpos)).
  rewrite (bind_Ok _ _ _ _ _ (I _ _ Hy)).
  unfold emit, modify, m1. cbn. rewrite <- app_assoc. reflexivity.
Qed.

(** X9.  SPACE on a screen whose position list is too short raises
    [IndexError] and asks for no transition: on an empty list the store is
    unchanged; on a one-item list the item has already grown by 10 when the
    second access fails, and nothing else has changed. *)
Theorem space_on_short_position_fails c mods m l t :
  c = MainMenu_class \/ c = Scene_class ->
  attr m l "text_position" = Some (VRef t) ->
  (objs m !! t = Some (OList []) ->
   c_key_down (classes c) l key.SPACE mods m = Raise IndexError m)
  /\ (forall x, objs m !! t = Some (OList [VInt x]) ->
        exists m',
          c_key_down (classes c) l key.SPACE mods m = Raise IndexError m'
          /\ list_at m' (VRef t) = Some [VInt (x + 10)]
          /\ (forall q, q <> t -> objs m' !! q = objs m !! q)).
Proof.
  intros Hc Hpos.
  assert (G : getattr l "text_position" m = Ok (VRef t) m) by (apply getattr_attr; exact Hpos).
  split.
  - intros Ht.
    assert (A : (let* pos := getattr l "text_position" in iadd_item pos 0 10) m
                = Raise IndexError m)
      by (rewrite (bind_Ok _ _ _ _ _ G); unfold iadd_item, bind, deref;
          rewrite Ht; reflexivity).
    destruct Hc as [-> | ->];
      [change (MainMenu.key_down l key.SPACE mods m = Raise IndexError m)
      |change (Scene.key_down l key.SPACE mods m = Raise IndexError m)];
      unfold MainMenu.key_down, Scene.key_down;
      change (key.SPACE =? key.ESCAPE) with false;
      change (key.SPACE =? key.SPACE) with true; cbn beta iota;
      rewrite (bind_Ok _ _ _ _ _ (eq_refl : ret tt m = Ok tt m));
      rewrite (bind_Raise _ _ _ _ _ A); reflexivity.
  - intros x Ht.
    set (m1 := set_objs (fun os => <[t := OList [VInt (x + 10)]]> os) m).
    assert (A0 : (let* pos := getattr l "text_position" in iadd_item pos 0 10) m
                 = Ok tt m1)
      by (rewrite (bind_Ok _ _ _ _ _ G);
          exact (iadd_item_list m t [VInt x] 0 x 10 Ht eq_refl)).
    assert (Ht1 : objs m1 !! t = Some (OList [VInt (x + 10)]))
      by (eapply lookup_write_eq; exact Ht).
    assert (Hlt : l <> t).
    { intros ->. unfold attr in Hpos. rewrite Ht in Hpos. discriminate. }
    assert (G1 : getattr l "text_position" m1 = Ok (VRef t) m1).
    { apply getattr_attr. unfold attr, m1. rewrite lookup_write_ne by exact Hlt.
      exact Hpos. }
    assert (A1 : (let* pos := getattr l "text_position" in iadd_item pos 1 10) m1
                 = Raise IndexError m1)
      by (rewrite (bind_Ok _ _ _ _ _ G1); unfold iadd_item, bind, deref;
          rewrite Ht1; reflexivity).
    exists m1. split; [|split].
    + destruct Hc as [-> | ->];
        [change (MainMenu.key_down l key.SPACE mods m = Raise IndexError m1)
        |change (Scene.key_down l key.SPACE mods m = Raise IndexError m1)];
        unfold MainMenu.key_down, Scene.key_down;
        change (key.SPACE =? key.ESCAPE) with false;
        change (key.SPACE =? key.SPACE) with true; cbn beta iota;
        rewrite (bind_Ok _ _ _ _ _ (eq_refl : ret tt m = Ok tt m));
        rewrite (bind_Ok _ _ _ _ _ A0);
        rewrite (bind_Raise _ _ _ _ _ A1); reflexivity.
    + unfold list_at. rewrite Ht1. reflexivity.
    + intros q Hq. unfold m1. apply lookup_write_ne. exact Hq.
Qed.

(** [setup] of the two screens on a bag that has no [get]. *)
Lemma screen_setup_no_get (text : string) l m c0 a bag :
  objs m !! l = Some (OInst c0 a) ->
  (forall p, bag = VRef p -> exists xs, objs m !! p = Some (OList xs)) ->
  exists m',
    (setattr l "persist" bag >>
     setattr l "text" (VStr text) >>
     let* bag := getattr l "persist" in
     let* get := attr_get bag in
     let* dflt := new_obj (OList [VInt 0; VInt 300]) in
     let* pos := call_get get "text_position" (VRef dflt) in
     setattr l "text_position" pos) m = Raise (AttributeError "get") m'
    /\ attr m' l "persist" = Some bag
    /\ attr m' l "text_position" = attr m l "text_position"
    /\ length (objs m') = length (objs m).
Proof.
  intros Hl Hbag.
  destruct (setattr_step m l c0 a "persist" bag Hl) as (m1 & E1 & H1 & O1 & L1).
  destruct (setattr_step m1 l c0 _ "text" (VStr text) H1) as (m2 & E2 & H2 & O2 & L2).
  assert (G : getattr l "persist" m2 = Ok bag m2).
  { apply getattr_attr. rewrite (attr_inst _ _ _ _ _ H2).
    rewrite lookup_insert_ne by discriminate. apply lookup_insert_eq. }
  assert (A : attr_get bag m2 = Raise (AttributeError "get") m2).
  { destruct bag as [| | | | |p]; try reflexivity.
    destruct (Hbag p eq_refl) as (xs & Hp).
    assert (p <> l) by (intros ->; rewrite Hl in Hp; discriminate).
    unfold attr_get, bind, deref. rewrite O2, O1, Hp by assumption. reflexivity. }
  exists m2. split; [|split; [|split]].
  - rewrite (bind_Ok _ _ _ _ _ E1), (bind_Ok _ _ _ _ _ E2), (bind_Ok _ _ _ _ _ G).
    rewrite (bind_Raise _ _ _ _ _ A). reflexivity.
  - rewrite (attr_inst _ _ _ _ _ H2).
    rewrite lookup_insert_ne by discriminate. apply lookup_insert_eq.
  - rewrite (attr_inst _ _ _ _ _ H2), (attr_inst _ _ _ _ _ Hl).
    rewrite !lookup_insert_ne by discriminate. reflexivity.
  - congruence.
Qed.

(** X10.  [setup] of a screen on a bag that is not a reference, or that
    refers to a list, raises [AttributeError] on [get]: by then [persist]
    holds the bag, no default list has been built and [text_position] is as
    it was. *)
Theorem setup_without_dictionary_fails c l m c0 a bag :
  c = MainMenu_class \/ c = Scene_class ->
  objs m !! l = Some (OInst c0 a) ->
  (forall p, bag = VRef p -> exists xs, objs m !! p = Some (OList xs)) ->
  exists m',
    c_setup (classes c) l bag m = Raise (AttributeError "get") m'
    /\ attr m' l "persist" = Some bag
    /\ attr m' l "text_position" = attr m l "text_position"
    /\ length (objs m') = length (objs m).
Proof.
  intros Hc Hl Hbag.
  destruct Hc as [-> | ->];
    [change (c_setup (classes MainMenu_class) l bag m) with (MainMenu.setup l bag m)
    |change (c_setup (classes Scene_class) l bag m) with (Scene.setup l bag m)];
    unfold MainMenu.setup, Scene.setup;
    match goal with |- context [VStr ?txt] =>
      exact (screen_setup_no_get txt l m c0 a bag Hl Hbag) end.
Qed.

Lemma truthy_same_sorts (m m' : store cname) v :
  (forall q xs, objs m !! q = Some (OList xs) -> objs m' !! q = Some (OList xs)) ->
  (forall q kv, objs m !! q = Some (ODict kv) -> objs m' !! q = Some (ODict kv)) ->
  truthy m v = false -> truthy m' v = false.
Proof.
  intros HL HD. destruct v as [| | | | |q]; cbn; try tauto.
  destruct (objs m !! q) as [[xs|kv|c a]|] eqn:Hq; try discriminate.
  - rewrite (HL _ _ Hq). tauto.
  - rewrite (HD _ _ Hq). tauto.
Qed.

(** X11.  ESCAPE on a screen whose [done] flag is not set, then a frame
    update: the run ends on [SystemExit]; the only hook called is that
    [key_down], which has set [quit] on the state and changed nothing else;
    there is no transition and no update dispatch. *)
Theorem escape_then_update_quits w c l a d mods dt :
  c = MainMenu_class \/ c = Scene_class ->
  Game.state (Game.game w) = Some l ->
  objs (Game.mem w) !! l = Some (OInst c a) ->
  a !! "done" = Some d ->
  truthy (Game.mem w) d = false ->
  exists m',
    Game.run classes [Game.EKeyPress key.ESCAPE mods; Game.EUpdate dt] w
    = Raise SystemExit
        (Game.World (Game.game w) m'
           (Game.calls w ++ [Game.KeyDown l key.ESCAPE mods]))
    /\ objs m' !! l = Some (OInst c (<["quit" := VBool true]> a))
    /\ (forall q, q <> l -> objs m' !! q = objs (Game.mem w) !! q).
Proof.
  intros Hc Hs Hl Hd Ht.
  destruct (setattr_step (Game.mem w) l c a "quit" (VBool true) Hl)
    as (m1 & E1 & H1 & O1 & L1).
  assert (Kd : c_key_down (classes c) l key.ESCAPE mods (Game.mem w) = Ok tt m1).
  { destruct Hc as [-> | ->];
      [change (MainMenu.key_down l key.ESCAPE mods (Game.mem w) = Ok tt m1)
      |change (Scene.key_down l key.ESCAPE mods (Game.mem w) = Ok tt m1)];
      unfold MainMenu.key_down, Scene.key_down;
      change (key.ESCAPE =? key.ESCAPE) with true;
      change (key.ESCAPE =? key.SPACE) with false; cbn beta iota;
      rewrite (bind_Ok _ _ _ _ _ E1); reflexivity. }
  pose proof (on_key_press_returns classes w l c key.ESCAPE mods m1 Hs
                (class_of_inst _ _ _ _ Hl) Kd) as K.
  set (w1 := Game.World (Game.game w) m1
               (Game.calls w ++ [Game.KeyDown l key.ESCAPE mods])) in *.
  assert (Ht1 : truthy m1 d = false).
  { apply (truthy_same_sorts (Game.mem w)); [| |exact Ht].
    - intros q xs Hq. rewrite O1; [exact Hq|]. intros ->. rewrite Hl in Hq. discriminate.
    - intros q kv Hq. rewrite O1; [exact Hq|]. intros ->. rewrite Hl in Hq. discriminate. }
  assert (U : Game.update classes dt w1 = Raise SystemExit w1).
  { rewrite (quiet_tick classes w1 dt l d (VBool true)); try assumption; try reflexivity.
    - unfold w1. cbn. rewrite (attr_inst _ _ _ _ _ H1).
      rewrite lookup_insert_ne by discriminate. exact Hd.
    - unfold w1. cbn. rewrite (attr_inst _ _ _ _ _ H1). apply lookup_insert_eq. }
  exists m1. split; [|split; assumption].
  cbn [Game.run Game.deliver].
  rewrite (bind_Ok _ _ _ _ _ K), (bind_Raise _ _ _ _ _ U). reflexivity.
Qed.

(** ** Instances of the further properties *)

(** A change of screen and a draw. *)
Lemma callbacks_keep_registry_and_bag_witness :
  let w := final (play (fun _ => 0) []) in
  let es := [Game.EKeyPress key.SPACE 0; Game.EUpdate (VInt 16); Game.EDraw] in
  let w' := final (Game.run classes es w) in
  Game.states (Game.game w') = Game.states (Game.game w)
  /\ Game.persist (Game.game w') = Game.persist (Game.game w)
  /\ is_Some (Game.state (Game.game w')).
Proof.
  cbv zeta.
  destruct (callbacks_keep_registry_and_bag classes
              [Game.EKeyPress key.SPACE 0; Game.EUpdate (VInt 16); Game.EDraw]
              (final (play (fun _ => 0) []))) as (Hs & Hp & Hl).
  split; [exact Hs|]. split; [exact Hp|]. apply Hl. vm_compute. eauto.
Defined.

(** The constructor on a bare instance. *)
Lemma State_init_gives_own_fields_witness :
  let m : store cname := Store [OInst State_class ∅] [] (fun _ => 0) 0 in
  exists m' d,
    State.__init__ 0%nat m = Ok tt m'
    /\ objs m !! d = None
    /\ objs m' !! d = Some (ODict ∅)
    /\ attr m' 0 "persist" = Some (VRef d)
    /\ attr m' 0 "next_state" = Some VNone
    /\ attr m' 0 "done" = Some (VBool false)
    /\ attr m' 0 "quit" = Some (VBool false)
    /\ (forall q, q <> 0%nat -> is_Some (objs m !! q) -> objs m' !! q = objs m !! q).
Proof.
  cbv zeta.
  apply (State_init_gives_own_fields 0%nat
           (Store [OInst State_class ∅] [] (fun _ => 0) 0) State_class ∅).
  reflexivity.
Defined.

(** A scene set up with a bag that records a position. *)
Lemma setup_takes_position_from_bag_witness :
  let kv : gmap string value := <["text_position" := VRef 2]> ∅ in
  let m : store cname :=
    Store [OInst Scene_class ∅; ODict kv; OList [VInt 10; VInt 310]] []
      (fun _ => 0) 0 in
  exists m',
    c_setup (classes Scene_class) 0%nat (VRef 1) m = Ok tt m'
    /\ attr m' 0 "persist" = Some (VRef 1)
    /\ objs m' !! 1%nat = Some (ODict kv)
    /\ attr m' 0 "text_position" = Some (VRef 2).
Proof.
  cbv zeta.
  destruct (setup_takes_position_from_bag Scene_class 0%nat
              (Store [OInst Scene_class ∅; ODict (<["text_position" := VRef 2]> ∅);
                      OList [VInt 10; VInt 310]] [] (fun _ => 0) 0)
              Scene_class ∅ 1%nat (<["text_position" := VRef 2]> ∅)
              (or_intror eq_refl) eq_refl eq_refl)
    as (m' & E & B & K & T & _).
  exists m'. repeat split; assumption.
Defined.

(** SPACE on the main menu at start-up. *)
Lemma space_moves_position_and_asks_transition_witness :
  let m := Game.mem (final (play (fun _ => 0) [])) in
  exists m',
    c_key_down (classes MainMenu_class) 0%nat key.SPACE 0 m = Ok tt m'
    /\ list_at m' (VRef 3) = Some [VInt 10; VInt 310]
    /\ objs m' !! 2%nat = Some (ODict (<["text_position" := VRef 3]> ∅))
    /\ attr m' 0 "done" = Some (VBool true)
    /\ attr m' 0 "next_state" = Some (VStr "SCENE").
Proof.
  cbv zeta.
  destruct (space_moves_position_and_asks_transition MainMenu_class 0
              (Game.mem (final (play (fun _ => 0) []))) 0%nat 2%nat ∅ 3%nat
              [VInt 0; VInt 300] 0 300 (or_introl eq_refl))
    as (m' & E & L & P & D & N & _); try (vm_compute; reflexivity).
  exists m'. repeat split; assumption.
Defined.

(** The first update of the main menu. *)
Lemma update_picks_shade_witness :
  let m := Game.mem (final (play (fun _ => 0) [])) in
  exists m' x,
    c_update (classes MainMenu_class) 0%nat (VInt 16) m = Ok tt m'
    /\ 150 <= x <= 200
    /\ attr m' 0 "col" = Some (VTuple [VInt 255; VInt x; VInt x]).
Proof.
  cbv zeta.
  edestruct (update_picks_shade MainMenu_class 0%nat (VInt 16)
               (Game.mem (final (play (fun _ => 0) []))) MainMenu_class)
    as (m' & x & E & Hx & C & _); [left; reflexivity | vm_compute; reflexivity|].
  exists m', x. repeat split; solve [assumption | apply Hx].
Defined.

(** The main menu drawn after its first update. *)
Lemma draw_emits_background_and_text_witness :
  let m := Game.mem (final (play (fun _ => 0) [Game.EUpdate (VInt 16)])) in
  exists text,
    c_draw (classes MainMenu_class) 0%nat m
    = Ok tt (Store (objs m)
               (screen m ++ [SetBackgroundColor (VTuple [VInt 255; VInt 150; VInt 150]);
                             DrawText text (VInt 0) (VInt 300) BLACK 14 "top"])
               (entropy m) (drawn m)).
Proof.
  cbv zeta. eexists.
  apply (draw_emits_background_and_text MainMenu_class 0%nat _ 3%nat
           [VInt 0; VInt 300]); try (vm_compute; reflexivity).
  left. reflexivity.
Defined.

(** SPACE on a main menu whose position list is empty. *)
Lemma space_on_short_position_fails_witness :
  let m : store cname :=
    Store [OInst MainMenu_class (<["text_position" := VRef 1]> ∅); OList []] []
      (fun _ => 0) 0 in
  c_key_down (classes MainMenu_class) 0%nat key.SPACE 0 m = Raise IndexError m.
Proof.
  cbv zeta.
  refine (proj1 (space_on_short_position_fails MainMenu_class 0
                   (Store [OInst MainMenu_class (<["text_position" := VRef 1]> ∅);
                           OList []] [] (fun _ => 0) 0)
                   0%nat 1%nat (or_introl eq_refl) _) _).
  - vm_compute. reflexivity.
  - reflexivity.
Defined.

(** A scene set up with [None]. *)
Lemma setup_without_dictionary_fails_witness :
  let m : store cname := Store [OInst Scene_class ∅] [] (fun _ => 0) 0 in
  exists m',
    c_setup (classes Scene_class) 0%nat VNone m = Raise (AttributeError "get") m'
    /\ attr m' 0 "persist" = Some VNone
    /\ attr m' 0 "text_position" = None
    /\ length (objs m') = 1%nat.
Proof.
  cbv zeta.
  destruct (setup_without_dictionary_fails Scene_class 0%nat
              (Store [OInst Scene_class ∅] [] (fun _ => 0) 0) Scene_class ∅ VNone)
    as (m' & E & P & T & L).
  - right. reflexivity.
  - reflexivity.
  - intros p H. discriminate H.
  - exists m'. split; [exact E|]. split; [exact P|]. split; [|exact L].
    rewrite T. vm_compute. reflexivity.
Defined.

(** ESCAPE on the main menu at start-up. *)
Lemma escape_then_update_quits_witness :
  let w := final (play (fun _ => 0) []) in
  exists m',
    Game.run classes [Game.EKeyPress key.ESCAPE 0; Game.EUpdate (VInt 16)] w
    = Raise SystemExit
        (Game.World (Game.game w) m'
           (Game.calls w ++ [Game.KeyDown 0 key.ESCAPE 0])).
Proof.
  cbv zeta.
  destruct (escape_then_update_quits (final (play (fun _ => 0) []))
              MainMenu_class 0%nat
              (match objs (Game.mem (final (play (fun _ => 0) []))) !! 0%nat with
               | Some (OInst _ a) => a
               | _ => ∅
               end)
              (VBool false) 0 (VInt 16))
    as (m' & E & _);
    [left; reflexivity | reflexivity | vm_compute; reflexivity
    | vm_compute; reflexivity | reflexivity |].
  exists m'. exact E.
Defined.
